(** * Sport-Line: the candidate ranker and the map presenter

    A shallow embedding of [src/services/geminiService.ts] (the candidate
    ranker) and of the map view component (marker colours, join button,
    selection slots), followed by the properties of the specification that
    were checked against them. *)

From Stdlib Require Import List String Ascii Bool ZArith QArith Lia.
From Stdlib Require Import Sorted Permutation DecimalString Lqa.
Import ListNotations.

Set Implicit Arguments.

(* ================================================================== *)
(** * The fragment of JavaScript the two files rely on *)
(* ================================================================== *)

Module JS.

(** A [number] that is not NaN.  JSON text never denotes NaN, and the
    arithmetic below is the only place where NaN can appear, so NaN is kept
    out of the type and shows up as [None] in the result of [sub].  A finite
    double is represented by the rational it denotes; the comparisons and the
    sign of a difference used here are exact on doubles. *)
Inductive number : Type :=
| NegInfinity
| Finite (q : Q)
| PosInfinity.

Definition of_Z (z : Z) : number := Finite (inject_Z z).

(** The order of the extended rationals, against which the comparisons of
    the code are read. *)
Definition le (x y : number) : Prop :=
  match x, y with
  | NegInfinity, _ => True
  | _, PosInfinity => True
  | Finite a, Finite b => (a <= b)%Q
  | _, _ => False
  end.

Definition lt (x y : number) : Prop :=
  match x, y with
  | NegInfinity, NegInfinity => False
  | NegInfinity, _ => True
  | Finite a, Finite b => (a < b)%Q
  | Finite _, PosInfinity => True
  | _, _ => False
  end.

Definition isZero (x : number) : Prop :=
  match x with
  | Finite q => (q == 0)%Q
  | _ => False
  end.

(** [x - y]; [None] stands for NaN. *)
Definition sub (x y : number) : option number :=
  match x, y with
  | Finite a, Finite b => Some (Finite (a - b))
  | Finite _, PosInfinity => Some NegInfinity
  | Finite _, NegInfinity => Some PosInfinity
  | PosInfinity, PosInfinity => None
  | PosInfinity, _ => Some PosInfinity
  | NegInfinity, NegInfinity => None
  | NegInfinity, _ => Some NegInfinity
  end.

(** [x > y] and [x >= y] *)
Definition gt (x y : number) : bool :=
  match x, y with
  | Finite a, Finite b => negb (Qle_bool a b)
  | PosInfinity, PosInfinity => false
  | PosInfinity, _ => true
  | NegInfinity, _ => false
  | Finite _, NegInfinity => true
  | Finite _, PosInfinity => false
  end.

Definition ge (x y : number) : bool :=
  match x, y with
  | Finite a, Finite b => Qle_bool b a
  | PosInfinity, _ => true
  | _, NegInfinity => true
  | NegInfinity, _ => false
  | Finite _, PosInfinity => false
  end.

(** ToBoolean on numbers and strings: [0] and the empty string are falsy. *)
Definition truthy_number (x : number) : bool :=
  match x with
  | Finite q => negb (Qeq_bool q 0)
  | _ => true
  end.

Definition truthy_string (s : string) : bool :=
  match s with
  | EmptyString => false
  | String _ _ => true
  end.

(** ToBoolean on an optional string member: [undefined] is falsy. *)
Definition truthy_optional (v : option string) : bool :=
  match v with
  | Some s => truthy_string s
  | None => false
  end.

(** [v || d] where [v] may be [undefined] ([None]). *)
Definition or_default {A : Type} (truthy : A -> bool) (v : option A) (d : A) : A :=
  match v with
  | Some a => if truthy a then a else d
  | None => d
  end.

(** Thrown values. *)
Inductive exn : Type :=
| NetworkError (message : string)
| ApiError (message : string)
| SyntaxError (message : string)
| TypeError (message : string)
| ReferenceError (identifier : string).

(** The outcome of evaluating an expression or awaiting a promise. *)
Inductive completion (A : Type) : Type :=
| Normal (a : A)
| Throw (e : exn).

Arguments Normal {A} a.
Arguments Throw {A} e.

(** ** [Array.prototype.find] *)
Definition Array_find {A : Type} (p : A -> bool) (l : list A) : option A :=
  List.find p l.

(** ** [Array.prototype.sort]

    [comparefn a b > 0] moves [a] behind [b]; a NaN result counts as [+0];
    the sort is stable.  For a consistent comparator every stable sort
    returns the same list, which is the one insertion builds here. *)
Section ArraySort.
Context {A : Type}.
Variable comparefn : A -> A -> option number.

Definition comes_after (a b : A) : bool :=
  match comparefn a b with
  | Some v => gt v (Finite 0)
  | None => false
  end.

Fixpoint sort_insert (x : A) (l : list A) : list A :=
  match l with
  | [] => [x]
  | y :: l' => if comes_after x y then y :: sort_insert x l' else x :: y :: l'
  end.

Fixpoint Array_sort (l : list A) : list A :=
  match l with
  | [] => []
  | x :: l' => sort_insert x (Array_sort l')
  end.
End ArraySort.

End JS.

(* ================================================================== *)
(** * The candidate ranker, [src/services/geminiService.ts] *)
(* ================================================================== *)

Module Ranker.
Import JS.

Local Open Scope string_scope.

(** ** Data model *)

Record Coords : Type := { lat : Q; lng : Q }.

Inductive LocationMode : Type := live | static.

(** Modelled from the spec: the [User] type of [../types], which is not
    among the files; the fields are the ones the spec lists and the two
    source files read. *)
Record User : Type := {
  uid : string;
  displayName : string;
  username : string;
  avatarUrl : string;
  preferredSports : list string;
  skillLevel : string;
  locationMode : LocationMode;
  isVisible : bool;
  staticCoords : Coords;
  displayCoords : option Coords
}.

(** [interface RankedUser extends User]: the user's own fields and the two
    derived ones. *)
Record RankedUser : Type := {
  base : User;
  compatibilityScore : number;
  rankingReason : string
}.

(** The [uid] a ranked user inherits. *)
Definition ruid (r : RankedUser) : string := uid (base r).

(** [{ ...c, compatibilityScore: s, rankingReason: r }] *)
Definition spread (c : User) (s : number) (r : string) : RankedUser :=
  {| base := c; compatibilityScore := s; rankingReason := r |}.

(** One item of the response, as the [responseSchema] of the request
    declares it: three required members, a string, a number and a string. *)
Record RankEntry : Type := {
  entry_uid : string;
  entry_compatibilityScore : number;
  entry_rankingReason : string
}.

(** ** The prompt

    The template text is constant; the prompt is determined by the two JSON
    documents spliced into it, which are kept as data. *)
Record PromptUser : Type := {
  pu_preferredSports : list string;
  pu_skillLevel : string;
  pu_location : string
}.

Record PromptCandidate : Type := {
  pc_uid : string;
  pc_displayName : string;
  pc_preferredSports : list string;
  pc_skillLevel : string;
  pc_locationMode : LocationMode;
  pc_isVisible : bool
}.

Record Prompt : Type := {
  prompt_currentUser : PromptUser;
  prompt_candidates : list PromptCandidate
}.

Definition buildPrompt (currentUser : User) (candidates : list User) : Prompt :=
  {| prompt_currentUser :=
       {| pu_preferredSports := preferredSports currentUser;
          pu_skillLevel := skillLevel currentUser;
          pu_location := match locationMode currentUser with
                         | live => "Live"
                         | static => "Static"
                         end |};
     prompt_candidates :=
       map (fun c => {| pc_uid := uid c;
                        pc_displayName := displayName c;
                        pc_preferredSports := preferredSports c;
                        pc_skillLevel := skillLevel c;
                        pc_locationMode := locationMode c;
                        pc_isVisible := isVisible c |}) candidates |}.

(** The schema language of the request, as far as the request uses it. *)
Inductive SchemaType : Type := STRING | NUMBER.

Record ObjectSchema : Type := {
  properties : list (string * SchemaType);
  required : list string
}.

Inductive Schema : Type :=
| ARRAY (items : ObjectSchema).

Record Request : Type := {
  model : string;
  contents : Prompt;
  responseMimeType : string;
  responseSchema : Schema
}.

Record Response : Type := { text : option string }.

(** ** The host

    What the module takes from its surroundings: the environment variable,
    the remote model behind [ai.models.generateContent], and [JSON.parse],
    whose result is read at the type the response schema declares.  Either
    call may throw.  A payload outside the schema that makes lines 68-75
    throw (a value without [find], a null item that [find] visits) ends in
    the same [catch] as a parse that throws. *)
Record Host : Type := {
  GEMINI_API_KEY : option string;
  generateContent : Request -> completion Response;
  JSON_parse : string -> completion (list RankEntry)
}.

(** [const apiKey = process.env.GEMINI_API_KEY || ""] *)
Definition apiKey (h : Host) : string :=
  or_default truthy_string (GEMINI_API_KEY h) "".

(** ** Effects

    A run leaves a log of what it did to the outside world and ends in a
    completion: the promise resolves ([Normal]) or rejects ([Throw]). *)
Inductive Event : Type :=
| ConsoleWarn (message : string)
| ConsoleError (message : string) (error : exn)
| NetworkCall (request : Request).

Definition Eff (A : Type) : Type := (list Event * completion A)%type.

Definition ret {A : Type} (a : A) : Eff A := ([], Normal a).

Definition bind {A B : Type} (m : Eff A) (k : A -> Eff B) : Eff B :=
  match m with
  | (log, Normal a) => let (log', r) := k a in ((log ++ log')%list, r)
  | (log, Throw e) => (log, Throw e)
  end.

Definition emit (ev : Event) : Eff unit := ([ev], Normal tt).

(** An outcome of the host, lifted. *)
Definition lift {A : Type} (c : completion A) : Eff A := ([], c).

(** [try { body } catch (error) { handler }] *)
Definition try_catch {A : Type} (body : Eff A) (handler : exn -> Eff A) : Eff A :=
  match body with
  | (log, Normal a) => (log, Normal a)
  | (log, Throw e) => let (log', r) := handler e in ((log ++ log')%list, r)
  end.

Declare Scope eff_scope.
Delimit Scope eff_scope with eff.
Notation "x <- m ;; k" := (bind m (fun x => k))
  (at level 61, m at next level, right associativity) : eff_scope.
Notation "m ;; k" := (bind m (fun _ => k))
  (at level 61, right associativity) : eff_scope.
Local Open Scope eff_scope.

(** ** [rankCandidates] *)

(** Lines 68-74: every candidate, with the score and reason of the first
    entry carrying its [uid]. *)
Definition mergeOne (rankedData : list RankEntry) (candidate : User) : RankedUser :=
  let rank := Array_find (fun r => String.eqb (entry_uid r) (uid candidate)) rankedData in
  spread candidate
    (or_default truthy_number (option_map entry_compatibilityScore rank) (Finite 0))
    (or_default truthy_string (option_map entry_rankingReason rank)
                "No specific reason provided").

Definition merge (rankedData : list RankEntry) (candidates : list User) : list RankedUser :=
  map (mergeOne rankedData) candidates.

(** Line 75: [(a, b) => b.compatibilityScore - a.compatibilityScore] *)
Definition byScoreDesc (a b : RankedUser) : option number :=
  sub (compatibilityScore b) (compatibilityScore a).

Definition fallback (reason : string) (candidates : list User) : list RankedUser :=
  map (fun c => spread c (Finite 0) reason) candidates.

(** Lines 46-64, the argument of [generateContent]. *)
Definition buildRequest (prompt : Prompt) : Request :=
  {| model := "gemini-3-flash-preview";
     contents := prompt;
     responseMimeType := "application/json";
     responseSchema :=
       ARRAY {| properties := [ ("uid", STRING);
                                ("compatibilityScore", NUMBER);
                                ("rankingReason", STRING) ];
                required := [ "uid"; "compatibilityScore"; "rankingReason" ] |} |}.

Definition rankCandidates (h : Host) (currentUser : User) (candidates : list User)
  : Eff (list RankedUser) :=
  if negb (truthy_string (apiKey h)) then
    emit (ConsoleWarn "Gemini API key missing, skipping AI ranking.") ;;
    ret (fallback "AI ranking unavailable" candidates)
  else
    let prompt := buildPrompt currentUser candidates in
    try_catch
      (let request := buildRequest prompt in
       emit (NetworkCall request) ;;
       response <- lift (generateContent h request) ;;
       rankedData <- lift (JSON_parse h (or_default truthy_string (text response) "[]")) ;;
       ret (Array_sort byScoreDesc (merge rankedData candidates)))
      (fun error =>
         emit (ConsoleError "Gemini ranking error:" error) ;;
         ret (fallback "Ranking failed" candidates)).

(** What the returned promise settles to, and what the run did. *)
Definition settled {A : Type} (m : Eff A) : completion A := snd m.
Definition trace {A : Type} (m : Eff A) : list Event := fst m.

(** ** Vocabulary of the specification *)

Definition scoreInRange (x : number) : Prop :=
  le (of_Z 0) x /\ le x (of_Z 100).

(** Non-increasing scores: every element is at least every later one. *)
Definition sortedByScoreDesc (l : list RankedUser) : Prop :=
  StronglySorted
    (fun r1 r2 => le (compatibilityScore r2) (compatibilityScore r1)) l.

(** The two lists carry the same set of [uid]s. *)
Definition sameUids (out : list RankedUser) (candidates : list User) : Prop :=
  forall x, In x (map ruid out) <-> In x (map uid candidates).

Definition noNetworkCall (log : list Event) : Prop :=
  forall request, ~ In (NetworkCall request) log.


Definition noneWithUid (u : string) (rankedData : list RankEntry) : Prop :=
  Forall (fun e => entry_uid e <> u) rankedData.

End Ranker.

(* ================================================================== *)
(** * The map presenter, the [MapView] component *)
(* ================================================================== *)

Module MapView.
Import JS.
Import Ranker.

Local Open Scope string_scope.

(** [Array.prototype.includes] on an array of strings. *)
Definition Array_includes (l : list string) (x : string) : bool :=
  existsb (String.eqb x) l.

(** Modelled from the spec: the [Party] type of [../types], which is not
    among the files; the fields are the ones the spec lists and the
    component reads. *)
Record Party : Type := {
  id : string;
  title : string;
  description : string;
  sport : string;
  venueName : option string;
  placeId : option string;
  latitude : Q;
  longitude : Q;
  date : string;
  startTime : string;
  endTime : string;
  playersCurrent : number;
  playersMax : number;
  members : list string;
  distance : option number;
  travelTime : option string
}.

Record MapViewProps : Type := {
  parties : list Party;
  candidates : list RankedUser;
  center : Coords;
  currentUser : string;
  isLoaded : bool;
  loadError : option string
}.

(** ** Marker icons *)

(** The icon is the constant cross-in-circle glyph; only the fill colour of
    the circle varies. *)
Record Icon : Type := {
  fill : string;
  scaledSize : Z * Z;
  anchor : Z * Z
}.

Definition getCandidateMarkerIcon (score : number) : Icon :=
  let color := if gt score (of_Z 80) then "#f59e0b"
               else if gt score (of_Z 50) then "#3b82f6"
               else "#6b7280" in
  {| fill := color; scaledSize := (32, 32)%Z; anchor := (16, 16)%Z |}.

(** ** The join button *)

Record ButtonState : Type := {
  btn_text : string;
  disabled : bool;
  className : string
}.

Definition getButtonState (props : MapViewProps) (party : Party) : ButtonState :=
  let isJoined := Array_includes (members party) (currentUser props) in
  let isFull := ge (playersCurrent party) (playersMax party) in
  if isJoined then
    {| btn_text := "Joined"; disabled := true;
       className := "bg-green-600 text-white cursor-default" |}
  else if isFull then
    {| btn_text := "Full"; disabled := true;
       className := "bg-gray-300 text-gray-500 cursor-not-allowed" |}
  else
    {| btn_text := "Join Party"; disabled := false;
       className := "bg-blue-600 text-white hover:bg-blue-700" |}.

(** ** Rendering modes and the component's state *)

Inductive Mode : Type :=
| LoadErrorPanel (message : string)
| LoadingPanel
| Ready.

Definition mode (props : MapViewProps) : Mode :=
  match loadError props with
  | Some message => LoadErrorPanel message
  | None => if negb (isLoaded props) then LoadingPanel else Ready
  end.

(** The three [useState] slots; the map instance carries no data here. *)
Record ViewState : Type := {
  map_ready : bool;
  selectedParty : option Party;
  selectedCandidate : option RankedUser
}.

Definition initialState : ViewState :=
  {| map_ready := false; selectedParty := None; selectedCandidate := None |}.

Definition setMap (b : bool) (s : ViewState) : ViewState :=
  {| map_ready := b;
     selectedParty := selectedParty s;
     selectedCandidate := selectedCandidate s |}.

Definition setSelectedParty (p : option Party) (s : ViewState) : ViewState :=
  {| map_ready := map_ready s;
     selectedParty := p;
     selectedCandidate := selectedCandidate s |}.

Definition setSelectedCandidate (c : option RankedUser) (s : ViewState) : ViewState :=
  {| map_ready := map_ready s;
     selectedParty := selectedParty s;
     selectedCandidate := c |}.

(** What the user or the map widget can do to the rendered tree.  Markers
    are addressed by their position in the list they are rendered from. *)
Inductive UIEvent : Type :=
| MapLoad
| MapUnmount
| MapClick
| PartyMarkerClick (i : nat)
| CandidateMarkerClick (i : nat)
| CandidatePanelClose
| PartyPanelClose.

(** The handler bound to each control.  [None]: the control is not in the
    rendered tree (the map is not shown, there is no such marker, or the
    panel is not open). *)
Definition handle (props : MapViewProps) (s : ViewState) (ev : UIEvent)
  : option ViewState :=
  match mode props with
  | Ready =>
      match ev with
      | MapLoad => Some (setMap true s)
      | MapUnmount => Some (setMap false s)
      | MapClick => Some (setSelectedParty None s)
      | PartyMarkerClick i =>
          match nth_error (parties props) i with
          | Some party => Some (setSelectedParty (Some party) s)
          | None => None
          end
      | CandidateMarkerClick i =>
          match nth_error (candidates props) i with
          | Some candidate => Some (setSelectedCandidate (Some candidate) s)
          | None => None
          end
      | CandidatePanelClose =>
          match selectedCandidate s with
          | Some _ => Some (setSelectedCandidate None s)
          | None => None
          end
      | PartyPanelClose =>
          match selectedParty s with
          | Some _ => Some (setSelectedParty None s)
          | None => None
          end
      end
  | _ => None
  end.

(** ** Rendering the party panel

    Names bound when the component body runs: the value imports of lines
    1-6, the global declared on line 9, the constants of the module and the
    locals of the component. *)
Definition scope : list string :=
  [ "React"; "useState"; "useCallback"; "useEffect";
    "GoogleMap"; "MarkerF"; "InfoWindowF"; "MarkerClustererF";
    "Users"; "Calendar"; "Clock"; "Loader2"; "AlertTriangle"; "MapPin";
    "Navigation"; "Car"; "Sparkles"; "UserIcon";
    "formatDistance";
    "google";
    "containerStyle"; "mapOptions"; "getMarkerIcon"; "getCandidateMarkerIcon";
    "MapView";
    "parties"; "candidates"; "center"; "currentUser"; "onJoinParty";
    "isLoaded"; "loadError";
    "map"; "setMap"; "selectedParty"; "setSelectedParty";
    "selectedCandidate"; "setSelectedCandidate";
    "onLoad"; "onUnmount"; "getButtonState"; "handleNavigate" ].

(** Evaluating an identifier. *)
Definition resolve (x : string) : completion string :=
  if Array_includes scope x then Normal x else Throw (ReferenceError x).

Inductive Node : Type :=
| Nothing
| Text (s : string)
| IconElement (component : string) (size : Z).

(** [<X size={n} />] *)
Definition icon (x : string) (size : Z) : completion Node :=
  match resolve x with
  | Normal c => Normal (IconElement c size)
  | Throw e => Throw e
  end.

(** An identifier that is evaluated without being rendered as an icon. *)
Definition use (x : string) : completion Node :=
  match resolve x with
  | Normal _ => Normal Nothing
  | Throw e => Throw e
  end.

(** [cond && e]: [e] is evaluated only when the condition holds. *)
Definition when (cond : bool) (e : completion Node) : completion Node :=
  if cond then e else Normal Nothing.

(** Children are evaluated in document order; the first throw wins. *)
Fixpoint sequence {A : Type} (l : list (completion A)) : completion (list A) :=
  match l with
  | [] => Normal []
  | Throw e :: _ => Throw e
  | Normal a :: l' =>
      match sequence l' with
      | Normal r => Normal (a :: r)
      | Throw e => Throw e
      end
  end.

Record JoinButton : Type := {
  jb_disabled : bool;
  jb_className : string;
  jb_children : list Node
}.

(** Lines 321-333. *)
Definition renderJoinButton (props : MapViewProps) (party : Party)
  : completion JoinButton :=
  let btn := getButtonState props party in
  match sequence [ when (String.eqb (btn_text btn) "Joined") (icon "CheckCircle" 14);
                   Normal (Text (btn_text btn)) ] with
  | Throw e => Throw e
  | Normal children =>
      Normal {| jb_disabled := disabled btn;
                jb_className := "flex-1 py-1.5 rounded-lg text-sm font-medium transition-colors flex items-center justify-center gap-2 " ++ className btn;
                jb_children := children |}
  end.

Record PartyPanel : Type := {
  pp_title : string;
  pp_icons : list Node;
  pp_join : JoinButton
}.

Definition is_some {A : Type} (o : option A) : bool :=
  match o with Some _ => true | None => false end.

(** Lines 253-337, the panel of the selected party: the identifiers its
    render expression evaluates, in order, and the join button at its end. *)
Definition renderPartyPanel (props : MapViewProps) (selected : Party)
  : completion PartyPanel :=
  match sequence [ use "InfoWindowF";
                   use "google";
                   when (truthy_optional (venueName selected)) (icon "MapPin" 10);
                   when (is_some (distance selected)) (icon "Navigation" 10);
                   when (is_some (distance selected)) (use "formatDistance");
                   when (truthy_optional (travelTime selected)) (icon "Car" 10);
                   icon "Calendar" 14;
                   icon "Clock" 14;
                   icon "Users" 14;
                   icon "Navigation" 16;
                   use "getButtonState" ] with
  | Throw e => Throw e
  | Normal icons =>
      match renderJoinButton props selected with
      | Throw e => Throw e
      | Normal join =>
          Normal {| pp_title := title selected; pp_icons := icons; pp_join := join |}
      end
  end.

(** Lines 206-251, the panel of the selected candidate. *)
Definition renderCandidatePanel (selected : RankedUser) : completion (list Node) :=
  sequence [ use "InfoWindowF";
             icon "Sparkles" 10;
             icon "UserIcon" 12 ].

Inductive View : Type :=
| ErrorView (message : string) (icons : list Node)
| LoadingView (icons : list Node)
| MapSurface (markers : list Node)
             (candidatePanel : option (list Node))
             (partyPanel : option PartyPanel).

(** [cond && e] for a panel that depends on a selection slot. *)
Definition whenSelected {A B : Type} (slot : option A) (e : A -> completion B)
  : completion (option B) :=
  match slot with
  | None => Normal None
  | Some x =>
      match e x with
      | Normal v => Normal (Some v)
      | Throw e => Throw e
      end
  end.

(** The body of the component: what one render evaluates to. *)
Definition render (props : MapViewProps) (s : ViewState) : completion View :=
  match mode props with
  | LoadErrorPanel message =>
      match sequence [ icon "AlertTriangle" 32 ] with
      | Normal icons => Normal (ErrorView message icons)
      | Throw e => Throw e
      end
  | LoadingPanel =>
      match sequence [ icon "Loader2" 32 ] with
      | Normal icons => Normal (LoadingView icons)
      | Throw e => Throw e
      end
  | Ready =>
      match sequence [ use "GoogleMap"; use "containerStyle"; use "mapOptions";
                       use "MarkerClustererF"; use "MarkerF";
                       use "getCandidateMarkerIcon" ] with
      | Throw e => Throw e
      | Normal markers =>
          match whenSelected (selectedCandidate s) renderCandidatePanel with
          | Throw e => Throw e
          | Normal candidatePanel =>
              match whenSelected (selectedParty s) (renderPartyPanel props) with
              | Throw e => Throw e
              | Normal partyPanel =>
                  Normal (MapSurface markers candidatePanel partyPanel)
              end
          end
      end
  end.

End MapView.

(* ================================================================== *)
(** * Concrete users, parties and hosts *)
(* ================================================================== *)

Module Scenarios.
Import JS.
Import Ranker.
Import MapView.

Local Open Scope string_scope.

Definition origin : Coords := {| lat := 0; lng := 0 |}.

Definition mkUser (u name : string) : User :=
  {| uid := u; displayName := name; username := name; avatarUrl := "";
     preferredSports := ["Football"]; skillLevel := "Intermediate";
     locationMode := static; isVisible := true;
     staticCoords := origin; displayCoords := None |}.

Definition u1 : User := mkUser "u1" "Uma".
Definition candA : User := mkUser "a" "Anan".
Definition candB : User := mkUser "b" "Bua".

(** The JSON text of a ranking with integer scores. *)
Definition quoted (s : string) : string :=
  String "034"%char s ++ String "034"%char EmptyString.

Definition show_Z (z : Z) : string :=
  DecimalString.NilZero.string_of_int (Z.to_int z).

Definition entry_json (e : string * Z * string) : string :=
  let '(u, score, reason) := e in
  "{" ++ quoted "uid" ++ ":" ++ quoted u ++ ","
      ++ quoted "compatibilityScore" ++ ":" ++ show_Z score ++ ","
      ++ quoted "rankingReason" ++ ":" ++ quoted reason ++ "}".

Definition ranking_json (l : list (string * Z * string)) : string :=
  "[" ++ String.concat "," (map entry_json l) ++ "]".

Definition entry_of (e : string * Z * string) : RankEntry :=
  let '(u, score, reason) := e in
  {| entry_uid := u;
     entry_compatibilityScore := of_Z score;
     entry_rankingReason := reason |}.

(** A host with a credential whose model answers with the JSON text of
    [ranking], and whose [JSON.parse] reads that text and the empty array. *)
Definition hostReplying (ranking : list (string * Z * string)) : Host :=
  {| GEMINI_API_KEY := Some "test-key";
     generateContent := fun _ => Normal {| text := Some (ranking_json ranking) |};
     JSON_parse := fun s =>
       if String.eqb s (ranking_json ranking) then Normal (map entry_of ranking)
       else if String.eqb s "[]" then Normal []
       else Throw (SyntaxError "Unexpected token") |}.

(** A host with a credential whose model cannot be reached. *)
Definition hostUnreachable : Host :=
  {| GEMINI_API_KEY := Some "test-key";
     generateContent := fun _ => Throw (NetworkError "fetch failed");
     JSON_parse := fun s =>
       if String.eqb s "[]" then Normal []
       else Throw (SyntaxError "Unexpected token") |}.

(** A host with a credential whose model answers with text that is not JSON. *)
Definition hostGarbled : Host :=
  {| GEMINI_API_KEY := Some "test-key";
     generateContent := fun _ => Normal {| text := Some "Sorry, I cannot" |};
     JSON_parse := fun s =>
       if String.eqb s "[]" then Normal []
       else Throw (SyntaxError "Unexpected token") |}.

(** A host without a credential. *)
Definition hostWithoutKey : Host :=
  {| GEMINI_API_KEY := None;
     generateContent := fun _ => Throw (ApiError "API key not valid");
     JSON_parse := fun s =>
       if String.eqb s "[]" then Normal []
       else Throw (SyntaxError "Unexpected token") |}.


Definition party (cur max : Z) (who : list string) : Party :=
  {| id := "p1"; title := "Evening five-a-side"; description := "";
     sport := "Football"; venueName := Some "Central Park"; placeId := None;
     latitude := 0; longitude := 0;
     date := "2025-01-01"; startTime := "18:00"; endTime := "19:00";
     playersCurrent := of_Z cur; playersMax := of_Z max;
     members := who; distance := None; travelTime := None |}.

Definition ranked (c : User) (score : Z) (reason : string) : RankedUser :=
  {| base := c; compatibilityScore := of_Z score; rankingReason := reason |}.

Definition readyProps (ps : list Party) (cs : list RankedUser) (me : string)
  : MapViewProps :=
  {| parties := ps; candidates := cs; center := origin; currentUser := me;
     isLoaded := true; loadError := None |}.

End Scenarios.

(* ================================================================== *)
(** * The rest of the map presenter: markers, navigation, clicks *)
(* ================================================================== *)

Module Presenter.
Import JS.
Import Ranker.
Import MapView.

Local Open Scope string_scope.

(** ** Party markers, lines 44-72 *)

(** [colorMap], an object literal used as a map from sport to colour. *)
Definition colorMap : list (string * string) :=
  [ ("Football", "#22c55e");
    ("Basketball", "#f97316");
    ("Badminton", "#3b82f6");
    ("Tennis", "#eab308");
    ("Running", "#ef4444");
    ("Cycling", "#a855f7");
    ("Yoga", "#14b8a6");
    ("All", "#6b7280") ].

(** The members every object literal inherits: indexing [colorMap] with one
    of these names yields that member, a function or an object, not a
    colour. *)
Definition objectPrototypeMembers : list string :=
  [ "constructor"; "toString"; "toLocaleString"; "valueOf";
    "hasOwnProperty"; "isPrototypeOf"; "propertyIsEnumerable";
    "__proto__"; "__defineGetter__"; "__defineSetter__";
    "__lookupGetter__"; "__lookupSetter__" ].

Inductive MarkerFill : Type :=
| Colour (hex : string)
| InheritedMember (name : string).

Fixpoint ownProperty (o : list (string * string)) (k : string) : option string :=
  match o with
  | [] => None
  | (k', v) :: o' => if String.eqb k' k then Some v else ownProperty o' k
  end.

(** [colorMap[sport] || '#2563eb']: an own colour when it is not the empty
    string, else an inherited member (always truthy), else the default. *)
Definition markerColor (sport : string) : MarkerFill :=
  match ownProperty colorMap sport with
  | Some v => if truthy_string v then Colour v else Colour "#2563eb"
  | None =>
      if Array_includes objectPrototypeMembers sport then InheritedMember sport
      else Colour "#2563eb"
  end.

Record PinIcon : Type := {
  pin_fill : MarkerFill;
  pin_scaledSize : Z * Z;
  pin_anchor : Z * Z
}.

Definition getMarkerIcon (sport : string) : PinIcon :=
  {| pin_fill := markerColor sport;
     pin_scaledSize := (40, 40)%Z;
     pin_anchor := (20, 40)%Z |}.

(** ** The markers of the ready state, lines 181-204 *)

Record PartyMarker : Type := {
  pm_key : string;
  pm_position : Coords;
  pm_icon : PinIcon
}.

Record CandidateMarker : Type := {
  cm_key : string;
  cm_position : Coords;
  cm_icon : Icon
}.

Definition partyMarkers (props : MapViewProps) : list PartyMarker :=
  map (fun party =>
         {| pm_key := id party;
            pm_position := {| lat := latitude party; lng := longitude party |};
            pm_icon := getMarkerIcon (sport party) |})
      (parties props).

(** [displayCoords || staticCoords]: an object is always truthy. *)
Definition candidateMarkers (props : MapViewProps) : list CandidateMarker :=
  map (fun candidate =>
         {| cm_key := uid (base candidate);
            cm_position := or_default (fun _ => true)
                             (displayCoords (base candidate))
                             (staticCoords (base candidate));
            cm_icon := getCandidateMarkerIcon (compatibilityScore candidate) |})
      (candidates props).

(** ** [encodeURIComponent]

    A string stands for the bytes of the text in UTF-8, with one extension:
    a surrogate that has no partner, which UTF-8 cannot write, stands as the
    three bytes of its code point, [ED], then [A0] to [BF], then one more.
    On such a text [encodeURIComponent] throws a [URIError].  On any other
    text every byte is written as a percent sign and two upper-case
    hexadecimal digits, except the letters, the digits and the marks
    [- _ . ! ~ * ' ( )]. *)
Inductive outcome (A : Type) : Type :=
| Returns (a : A)
| ThrowsURIError.

Arguments Returns {A} a.
Arguments ThrowsURIError {A}.

Fixpoint hasLoneSurrogate (s : string) : bool :=
  match s with
  | String c (String d _ as rest) =>
      ((nat_of_ascii c =? 237) && (160 <=? nat_of_ascii d)
       && (nat_of_ascii d <=? 191))%nat
      || hasLoneSurrogate rest
  | _ => false
  end.

Definition unreserved (c : ascii) : bool :=
  let n := nat_of_ascii c in
  (((65 <=? n) && (n <=? 90)) || ((97 <=? n) && (n <=? 122)) ||
   ((48 <=? n) && (n <=? 57)) ||
   existsb (Nat.eqb n) [45; 95; 46; 33; 126; 42; 39; 40; 41])%nat.

Definition hexDigit (n : nat) : ascii :=
  ascii_of_nat (if n <? 10 then 48 + n else 55 + n)%nat.

Definition percentEncode (c : ascii) : string :=
  let n := nat_of_ascii c in
  String "%" (String (hexDigit (n / 16)%nat)
                     (String (hexDigit (n mod 16)%nat) EmptyString)).

Fixpoint escapeBytes (s : string) : string :=
  match s with
  | EmptyString => EmptyString
  | String c s' =>
      if unreserved c then String c (escapeBytes s')
      else percentEncode c ++ escapeBytes s'
  end.

Definition encodeURIComponent (s : string) : outcome string :=
  if hasLoneSurrogate s then ThrowsURIError else Returns (escapeBytes s).

(** ** What a click does to the outside world *)
Inductive Effect : Type :=
| OnJoinParty (partyId : string)
| WindowOpen (url : string) (target : string).

(** ** [handleNavigate], lines 158-169 *)
Section Navigate.
(** The decimal text of a number in a template literal, which belongs to
    the language and not to this file. *)
Variable Number_toString : Q -> string.

(** The [if] of lines 162-166; a throw of the encoder leaves the function
    before the window is opened. *)
Definition destinationParam (party : Party) : outcome string :=
  let byCoordinates :=
    Returns ("&destination=" ++ Number_toString (latitude party) ++ ","
               ++ Number_toString (longitude party)) in
  match placeId party with
  | Some place =>
      if truthy_string place then
        match encodeURIComponent
                (or_default truthy_string (venueName party) "Destination") with
        | Returns venue =>
            Returns ("&destination_place_id=" ++ place ++ "&destination=" ++ venue)
        | ThrowsURIError => ThrowsURIError
        end
      else byCoordinates
  | None => byCoordinates
  end.

Definition handleNavigate (party : Party) : outcome (list Effect) :=
  let baseUrl := "https://www.google.com/maps/dir/?api=1" in
  match destinationParam party with
  | Returns destination =>
      Returns [WindowOpen (baseUrl ++ destination ++ "&travelmode=driving") "_blank"]
  | ThrowsURIError => ThrowsURIError
  end.
End Navigate.

(** ** The join button of the party panel, lines 321-333

    A button exists only in a tree that rendered; a disabled button takes no
    click. *)
Definition clickJoin (props : MapViewProps) (s : ViewState) : list Effect :=
  match render props s, selectedParty s with
  | Normal (MapSurface _ _ (Some panel)), Some selected =>
      if jb_disabled (pp_join panel) then [] else [OnJoinParty (id selected)]
  | _, _ => []
  end.

(** ** Sequences of events

    The state after the events of [evs], one after the other; an event whose
    control is not in the tree changes nothing. *)
Fixpoint run (props : MapViewProps) (s : ViewState) (evs : list UIEvent)
  : ViewState :=
  match evs with
  | [] => s
  | ev :: rest =>
      match handle props s ev with
      | Some s' => run props s' rest
      | None => run props s rest
      end
  end.

Definition partyEvent (ev : UIEvent) : bool :=
  match ev with
  | MapClick | PartyMarkerClick _ | PartyPanelClose => true
  | _ => false
  end.

Definition candidateEvent (ev : UIEvent) : bool :=
  match ev with
  | CandidateMarkerClick _ | CandidatePanelClose => true
  | _ => false
  end.

(** ** Vocabulary *)

(** A text made of unreserved characters and percent escapes: every percent
    sign is followed by two hexadecimal digits, and every other character is
    unreserved. *)
Definition hexValue (c : ascii) : option nat :=
  let n := nat_of_ascii c in
  (if (48 <=? n) && (n <=? 57) then Some (n - 48)
   else if (65 <=? n) && (n <=? 70) then Some (n - 55)
   else if (97 <=? n) && (n <=? 102) then Some (n - 87)
   else None)%nat.

Fixpoint wellEscaped (s : string) : Prop :=
  match s with
  | EmptyString => True
  | String c rest =>
      if Ascii.eqb c "%" then
        match rest with
        | String h1 (String h2 rest') =>
            hexValue h1 <> None /\ hexValue h2 <> None /\ wellEscaped rest'
        | _ => False
        end
      else unreserved c = true /\ wellEscaped rest
  end.

(** The bytes a percent-encoded text stands for; [None] when a percent sign
    is not followed by two hexadecimal digits. *)
Fixpoint percentDecode (s : string) : option string :=
  match s with
  | EmptyString => Some EmptyString
  | String c rest =>
      if Ascii.eqb c "%" then
        match rest with
        | String h1 (String h2 rest') =>
            match hexValue h1, hexValue h2, percentDecode rest' with
            | Some a, Some b, Some r => Some (String (ascii_of_nat (16 * a + b)) r)
            | _, _, _ => None
            end
        | _ => None
        end
      else
        match percentDecode rest with
        | Some r => Some (String c r)
        | None => None
        end
  end.

(** Whatever is selected is one of the parties, or candidates, passed in. *)
Definition selectionFromProps (props : MapViewProps) (s : ViewState) : Prop :=
  (forall p, selectedParty s = Some p -> In p (parties props)) /\
  (forall c, selectedCandidate s = Some c -> In c (candidates props)).

End Presenter.

(* ================================================================== *)
(** * The candidate ranker: further vocabulary *)
(* ================================================================== *)

Module RankerVocabulary.
Import JS.
Import Ranker.

Local Open Scope string_scope.



Definition isNetworkCall (ev : Event) : bool :=
  match ev with
  | NetworkCall _ => true
  | _ => false
  end.

(** Two users the prompt cannot tell apart as current user. *)
Definition sameAsCurrentUser (u u' : User) : Prop :=
  preferredSports u = preferredSports u' /\
  skillLevel u = skillLevel u' /\
  locationMode u = locationMode u'.

(** Two users the prompt cannot tell apart as candidate. *)
Definition sameAsCandidate (c c' : User) : Prop :=
  uid c = uid c' /\
  displayName c = displayName c' /\
  preferredSports c = preferredSports c' /\
  skillLevel c = skillLevel c' /\
  locationMode c = locationMode c' /\
  isVisible c = isVisible c'.

End RankerVocabulary.

Module MoreScenarios.
Import JS.
Import Ranker.
Import MapView.
Import Scenarios.

Local Open Scope string_scope.


(** The spec's party: a place identifier and a venue name. *)
Definition centralPark : Party :=
  {| id := "p2"; title := "Morning run"; description := "";
     sport := "Running"; venueName := Some "Central Park";
     placeId := Some "ChIJxxx";
     latitude := 0; longitude := 0;
     date := "2025-01-01"; startTime := "07:00"; endTime := "08:00";
     playersCurrent := of_Z 3; playersMax := of_Z 10;
     members := ["x"]; distance := None; travelTime := None |}.

(** A user seen from somewhere else, under another name. *)
Definition moved (c : User) : User :=
  {| uid := uid c; displayName := displayName c; username := "elsewhere";
     avatarUrl := "https://example.org/a.png";
     preferredSports := preferredSports c; skillLevel := skillLevel c;
     locationMode := locationMode c; isVisible := isVisible c;
     staticCoords := {| lat := 13; lng := 100 |};
     displayCoords := Some {| lat := 14; lng := 101 |} |}.

(** The text that is one high surrogate, U+D83D, with no low one after it. *)
Definition loneSurrogate : string :=
  String (ascii_of_nat 237) (String (ascii_of_nat 160) (String (ascii_of_nat 189) EmptyString)).

(** The same party at another venue. *)
Definition atVenue (p : Party) (venue : string) : Party :=
  {| id := id p; title := title p; description := description p;
     sport := sport p; venueName := Some venue; placeId := placeId p;
     latitude := latitude p; longitude := longitude p;
     date := date p; startTime := startTime p; endTime := endTime p;
     playersCurrent := playersCurrent p; playersMax := playersMax p;
     members := members p; distance := distance p; travelTime := travelTime p |}.

(** An integer printer, for runs that need one. *)
Definition showInteger (q : Q) : string := show_Z (Qnum q).

End MoreScenarios.

(* ================================================================== *)
(** * The candidate ranker on an answer of any shape *)
(* ================================================================== *)

(** [JSON.parse] returns a value of type [any], and lines 68-75 use it
    without a check.  Here the parsed answer is an arbitrary JSON value, so
    that answers outside the response schema can be run too. *)
Module AnyPayload.
Import JS.
Import Ranker.

Local Open Scope string_scope.
Local Open Scope eff_scope.

Local Unset Elimination Schemes.
Inductive JSON : Type :=
| JNull
| JBool (b : bool)
| JNumber (n : number)
| JString (s : string)
| JArray (items : list JSON)
| JObject (members : list Member)
with Member : Type :=
| member (key : string) (value : JSON).
Local Set Elimination Schemes.

(** [o[k]] on an object built by [JSON.parse], for a key that objects do not
    inherit: of several members with the key the last one counts. *)
Fixpoint get (k : string) (ms : list Member) : option JSON :=
  match ms with
  | [] => None
  | member k' v :: ms' =>
      match get k ms' with
      | Some later => Some later
      | None => if String.eqb k' k then Some v else None
      end
  end.

(** ToBoolean *)
Definition truthy (v : JSON) : bool :=
  match v with
  | JNull => false
  | JBool b => b
  | JNumber n => truthy_number n
  | JString s => truthy_string s
  | JArray _ => true
  | JObject _ => true
  end.

(** A ranked user as it is at run time: the two derived fields hold
    whatever the answer held. *)
Record RankedUser : Type := {
  base : User;
  compatibilityScore : JSON;
  rankingReason : JSON
}.

(** The host of [Ranker.Host], with [JSON.parse] at its own type, and with
    the conversion to a number of a value that is not one, which belongs to
    the language: [None] stands for NaN, and the conversion throws for an
    object that has no primitive value. *)
Record Host : Type := {
  GEMINI_API_KEY : option string;
  generateContent : Request -> completion Response;
  JSON_parse : string -> completion JSON;
  ToNumber : JSON -> completion (option number)
}.

Definition apiKey (h : Host) : string :=
  or_default truthy_string (GEMINI_API_KEY h) "".

Definition toNumber (h : Host) (v : JSON) : completion (option number) :=
  match v with
  | JNumber n => Normal (Some n)
  | _ => ToNumber h v
  end.

(** [r.uid === candidate.uid]: reading a member of [null] throws; a value
    that is not an object has no [uid]. *)
Definition uidIs (u : string) (r : JSON) : completion bool :=
  match r with
  | JNull => Throw (TypeError "Cannot read properties of null")
  | JObject ms =>
      Normal (match get "uid" ms with
              | Some (JString s) => String.eqb s u
              | _ => false
              end)
  | _ => Normal false
  end.

Fixpoint findItem (p : JSON -> completion bool) (items : list JSON)
  : completion (option JSON) :=
  match items with
  | [] => Normal None
  | r :: items' =>
      match p r with
      | Throw e => Throw e
      | Normal true => Normal (Some r)
      | Normal false => findItem p items'
      end
  end.

(** [rankedData.find(p)]: only an array has [find]. *)
Definition Array_find (rankedData : JSON) (p : JSON -> completion bool)
  : completion (option JSON) :=
  match rankedData with
  | JArray items => findItem p items
  | JNull => Throw (TypeError "Cannot read properties of null")
  | _ => Throw (TypeError "rankedData.find is not a function")
  end.

(** [rank?.k] *)
Definition optionalMember (rank : option JSON) (k : string) : option JSON :=
  match rank with
  | Some (JObject ms) => get k ms
  | _ => None
  end.

(** Lines 68-74, for one candidate. *)
Definition mergeOne (rankedData : JSON) (candidate : User) : completion RankedUser :=
  match Array_find rankedData (uidIs (uid candidate)) with
  | Throw e => Throw e
  | Normal rank =>
      Normal {| base := candidate;
                compatibilityScore :=
                  or_default truthy (optionalMember rank "compatibilityScore")
                             (JNumber (Finite 0));
                rankingReason :=
                  or_default truthy (optionalMember rank "rankingReason")
                             (JString "No specific reason provided") |}
  end.

(** [candidates.map(...)]: the candidates in order; the first throw ends
    the loop. *)
Fixpoint merge (rankedData : JSON) (candidates : list User)
  : completion (list RankedUser) :=
  match candidates with
  | [] => Normal []
  | candidate :: rest =>
      match mergeOne rankedData candidate with
      | Throw e => Throw e
      | Normal r =>
          match merge rankedData rest with
          | Throw e => Throw e
          | Normal rs => Normal (r :: rs)
          end
      end
  end.

(** Line 75, [b.compatibilityScore - a.compatibilityScore]: the left operand
    is converted first. *)
Definition byScoreDesc (h : Host) (a b : RankedUser) : completion (option number) :=
  match toNumber h (compatibilityScore b) with
  | Throw e => Throw e
  | Normal nb =>
      match toNumber h (compatibilityScore a) with
      | Throw e => Throw e
      | Normal na =>
          Normal (match nb, na with
                  | Some x, Some y => sub x y
                  | _, _ => None
                  end)
      end
  end.

(** [Array.prototype.sort] of [JS.Array_sort], with a comparator that may
    throw. *)
Section ArraySort.
Context {A : Type}.
Variable comparefn : A -> A -> completion (option number).

Definition comes_after (a b : A) : completion bool :=
  match comparefn a b with
  | Throw e => Throw e
  | Normal (Some v) => Normal (gt v (Finite 0))
  | Normal None => Normal false
  end.

Fixpoint sort_insert (x : A) (l : list A) : completion (list A) :=
  match l with
  | [] => Normal [x]
  | y :: l' =>
      match comes_after x y with
      | Throw e => Throw e
      | Normal true =>
          match sort_insert x l' with
          | Throw e => Throw e
          | Normal r => Normal (y :: r)
          end
      | Normal false => Normal (x :: y :: l')
      end
  end.

Fixpoint Array_sort (l : list A) : completion (list A) :=
  match l with
  | [] => Normal []
  | x :: l' =>
      match Array_sort l' with
      | Throw e => Throw e
      | Normal r => sort_insert x r
      end
  end.
End ArraySort.

Definition fallback (reason : string) (candidates : list User) : list RankedUser :=
  map (fun c => {| base := c;
                   compatibilityScore := JNumber (Finite 0);
                   rankingReason := JString reason |}) candidates.

Definition rankCandidates (h : Host) (currentUser : User) (candidates : list User)
  : Eff (list RankedUser) :=
  if negb (truthy_string (apiKey h)) then
    emit (ConsoleWarn "Gemini API key missing, skipping AI ranking.") ;;
    ret (fallback "AI ranking unavailable" candidates)
  else
    let prompt := buildPrompt currentUser candidates in
    try_catch
      (let request := buildRequest prompt in
       emit (NetworkCall request) ;;
       response <- lift (generateContent h request) ;;
       rankedData <- lift (JSON_parse h (or_default truthy_string (text response) "[]")) ;;
       merged <- lift (merge rankedData candidates) ;;
       lift (Array_sort (byScoreDesc h) merged))
      (fun error =>
         emit (ConsoleError "Gemini ranking error:" error) ;;
         ret (fallback "Ranking failed" candidates)).

(** ** Answers inside the schema

    An entry of [Ranker], a list of entries, a ranked user and a host of
    [Ranker], as they appear here. *)
Definition ofEntry (e : RankEntry) : JSON :=
  JObject [ member "uid" (JString (entry_uid e));
            member "compatibilityScore" (JNumber (entry_compatibilityScore e));
            member "rankingReason" (JString (entry_rankingReason e)) ].

Definition ofEntries (l : list RankEntry) : JSON := JArray (map ofEntry l).

Definition ofRanked (r : Ranker.RankedUser) : RankedUser :=
  {| base := Ranker.base r;
     compatibilityScore := JNumber (Ranker.compatibilityScore r);
     rankingReason := JString (Ranker.rankingReason r) |}.

Definition ofHost (h : Ranker.Host) (toNumber : JSON -> completion (option number))
  : Host :=
  {| GEMINI_API_KEY := Ranker.GEMINI_API_KEY h;
     generateContent := Ranker.generateContent h;
     JSON_parse := fun s =>
       match Ranker.JSON_parse h s with
       | Normal l => Normal (ofEntries l)
       | Throw e => Throw e
       end;
     ToNumber := toNumber |}.

(** ** Vocabulary *)

(** Every [compatibilityScore] an entry of the answer carries is a number. *)
Definition numericScores (v : JSON) : Prop :=
  match v with
  | JArray items =>
      Forall (fun item =>
                match item with
                | JObject ms =>
                    match get "compatibilityScore" ms with
                    | Some s => exists n, s = JNumber n
                    | None => True
                    end
                | _ => True
                end) items
  | _ => True
  end.

(** The score is a number. *)
Definition numeric (r : RankedUser) : Prop :=
  exists n, compatibilityScore r = JNumber n.

(** [r1] may stand before [r2]: both scores are numbers and the first is at
    least the second. *)
Definition notBelow (r1 r2 : RankedUser) : Prop :=
  exists n1 n2,
    compatibilityScore r1 = JNumber n1 /\
    compatibilityScore r2 = JNumber n2 /\
    le n2 n1.

(** Non-increasing scores: every element is at least every later one. *)
Definition sortedByScoreDesc (l : list RankedUser) : Prop :=
  StronglySorted notBelow l.

End AnyPayload.

Module AnyScenarios.
Import JS.
Import Ranker.
Import Scenarios.

Local Open Scope string_scope.

Definition candC : User := mkUser "c" "Chai".

(** The JSON text of one entry whose score is given as JSON text. *)
Definition entry_text (u score : string) : string :=
  "{" ++ quoted "uid" ++ ":" ++ quoted u ++ ","
      ++ quoted "compatibilityScore" ++ ":" ++ score ++ ","
      ++ quoted "rankingReason" ++ ":" ++ quoted "ok" ++ "}".

Definition entry_value (u : string) (score : AnyPayload.JSON) : AnyPayload.JSON :=
  AnyPayload.JObject
    [ AnyPayload.member "uid" (AnyPayload.JString u);
      AnyPayload.member "compatibilityScore" score;
      AnyPayload.member "rankingReason" (AnyPayload.JString "ok") ].

(** A host with a credential whose model answers with [answer], a text that
    [JSON.parse] reads as [value]; of the values that are not numbers the
    runs below convert only strings without a numeric reading, which give
    NaN. *)
Definition hostAnswering (answer : string) (value : AnyPayload.JSON)
  : AnyPayload.Host :=
  {| AnyPayload.GEMINI_API_KEY := Some "test-key";
     AnyPayload.generateContent := fun _ => Normal {| text := Some answer |};
     AnyPayload.JSON_parse := fun s =>
       if String.eqb s answer then Normal value
       else if String.eqb s "[]" then Normal (AnyPayload.JArray [])
       else Throw (SyntaxError "Unexpected token");
     AnyPayload.ToNumber := fun v =>
       match v with
       | AnyPayload.JNull => Normal (Some (Finite 0))
       | AnyPayload.JBool true => Normal (Some (Finite 1))
       | AnyPayload.JBool false => Normal (Some (Finite 0))
       | _ => Normal None
       end |}.

(** Scores 1, "high", 2: the second is a string, against the schema. *)
Definition answerHigh : string :=
  "[" ++ entry_text "a" "1" ++ "," ++ entry_text "b" (quoted "high") ++ ","
      ++ entry_text "c" "2" ++ "]".

Definition valueHigh : AnyPayload.JSON :=
  AnyPayload.JArray
    [ entry_value "a" (AnyPayload.JNumber (of_Z 1));
      entry_value "b" (AnyPayload.JString "high");
      entry_value "c" (AnyPayload.JNumber (of_Z 2)) ].

(** Scores 1, 3, 2: all numbers. *)
Definition answerNumbers : string :=
  "[" ++ entry_text "a" "1" ++ "," ++ entry_text "b" "3" ++ ","
      ++ entry_text "c" "2" ++ "]".

Definition valueNumbers : AnyPayload.JSON :=
  AnyPayload.JArray
    [ entry_value "a" (AnyPayload.JNumber (of_Z 1));
      entry_value "b" (AnyPayload.JNumber (of_Z 3));
      entry_value "c" (AnyPayload.JNumber (of_Z 2)) ].

Definition rankedAny (c : User) (score : AnyPayload.JSON) : AnyPayload.RankedUser :=
  {| AnyPayload.base := c;
     AnyPayload.compatibilityScore := score;
     AnyPayload.rankingReason := AnyPayload.JString "ok" |}.

End AnyScenarios.

(* ================================================================== *)
(** * Facts about numbers and [Array.prototype.sort] *)
(* ================================================================== *)

(** Comparisons between numerals. *)
Ltac numerals := simpl; unfold Qle, Qlt, Qeq; simpl; lia.

Section NumberFacts.
Import JS.

Lemma Qle_bool_false (p q : Q) : Qle_bool p q = false <-> (q < p)%Q.
Proof.
  split; intros H.
  - apply Qnot_le_lt. intros Hle. apply Qle_bool_iff in Hle. congruence.
  - destruct (Qle_bool p q) eqn:E; [|reflexivity].
    apply Qle_bool_iff in E. lra.
Qed.

Lemma ge_le (x y : number) : ge x y = true <-> le y x.
Proof.
  destruct x, y; simpl; try (split; intros; solve [auto | discriminate | contradiction]).
  apply Qle_bool_iff.
Qed.

Lemma gt_lt (x y : number) : gt x y = true <-> lt y x.
Proof.
  destruct x, y; simpl; try (split; intros; solve [auto | discriminate | contradiction]).
  rewrite negb_true_iff. apply Qle_bool_false.
Qed.

Lemma gt_false_le (x y : number) : gt x y = false <-> le x y.
Proof.
  destruct x, y; simpl; try (split; intros; solve [auto | discriminate | contradiction]).
  rewrite negb_false_iff. apply Qle_bool_iff.
Qed.



Lemma truthy_string_false (s : string) : truthy_string s = false <-> s = EmptyString.
Proof.
  destruct s; simpl; split; congruence.
Qed.

Lemma lt_le (x y : number) : lt x y -> le x y.
Proof.
  destruct x, y; simpl; auto. apply Qlt_le_weak.
Qed.

Lemma lt_not_le (x y : number) : lt x y -> le y x -> False.
Proof.
  destruct x, y; simpl; auto. apply Qlt_not_le.
Qed.

Lemma le_trans (x y z : number) : le x y -> le y z -> le x z.
Proof.
  destruct x, y, z; simpl; auto; try contradiction. apply Qle_trans.
Qed.

(** The sign test of the comparator [b - a] is the comparison [b > a]. *)
Lemma sub_positive (x y : number) :
  match sub y x with
  | Some v => gt v (Finite 0)
  | None => false
  end = gt y x.
Proof.
  destruct x as [|p|], y as [|q|]; simpl; try reflexivity.
  f_equal.
  destruct (Qle_bool q p) eqn:E.
  - apply Qle_bool_iff in E. apply Qle_bool_iff. lra.
  - apply Qle_bool_false in E. apply Qle_bool_false. lra.
Qed.
End NumberFacts.

Section SortFacts.
Import JS.
Context {A : Type}.
Variable comparefn : A -> A -> option number.

Lemma sort_insert_perm (x : A) (l : list A) :
  Permutation (sort_insert comparefn x l) (x :: l).
Proof.
  induction l as [|y l IH]; simpl.
  - apply Permutation_refl.
  - destruct (comes_after comparefn x y).
    + apply perm_trans with (y :: x :: l).
      * apply perm_skip, IH.
      * apply perm_swap.
    + apply Permutation_refl.
Qed.

(** Whatever the comparator answers, sorting only reorders. *)
Lemma Array_sort_perm (l : list A) : Permutation (Array_sort comparefn l) l.
Proof.
  induction l as [|x l IH]; simpl.
  - apply perm_nil.
  - apply perm_trans with (x :: Array_sort comparefn l).
    + apply sort_insert_perm.
    + apply perm_skip, IH.
Qed.

(** [before a b]: [a] may stand directly in front of [b]. *)
Variable before : A -> A -> Prop.
Hypothesis after_before : forall a b, comes_after comparefn a b = true -> before b a.
Hypothesis stay_before : forall a b, comes_after comparefn a b = false -> before a b.

Lemma sort_insert_HdRel (x y : A) (l : list A) :
  before y x -> HdRel before y l -> HdRel before y (sort_insert comparefn x l).
Proof.
  intros Hyx Hl. destruct l as [|z l]; simpl.
  - constructor. exact Hyx.
  - inversion Hl; subst.
    destruct (comes_after comparefn x z); constructor; assumption.
Qed.

Lemma sort_insert_Sorted (x : A) (l : list A) :
  Sorted before l -> Sorted before (sort_insert comparefn x l).
Proof.
  induction l as [|y l IH]; simpl; intros Hs.
  - repeat constructor.
  - inversion Hs; subst.
    destruct (comes_after comparefn x y) eqn:E.
    + constructor.
      * apply IH. assumption.
      * apply sort_insert_HdRel; [apply after_before; exact E | assumption].
    + constructor; [assumption|].
      constructor. apply stay_before. exact E.
Qed.

Lemma Array_sort_Sorted (l : list A) : Sorted before (Array_sort comparefn l).
Proof.
  induction l as [|x l IH]; simpl.
  - constructor.
  - apply sort_insert_Sorted. exact IH.
Qed.
End SortFacts.

(* ================================================================== *)
(** * The candidate ranker: properties *)
(* ================================================================== *)

Section RankerFacts.
Import JS Ranker.
Local Open Scope string_scope.

Variable h : Host.
Variables (currentUser : User) (candidates : list User).

Let request : Request := buildRequest (buildPrompt currentUser candidates).

(** The four ways a run can go. *)
Lemma run_without_key :
  truthy_string (apiKey h) = false ->
  rankCandidates h currentUser candidates =
    ([ConsoleWarn "Gemini API key missing, skipping AI ranking."],
     Normal (fallback "AI ranking unavailable" candidates)).
Proof.
  intros Hk. unfold rankCandidates. rewrite Hk. reflexivity.
Qed.

Lemma run_call_throws (e : exn) :
  truthy_string (apiKey h) = true ->
  generateContent h request = Throw e ->
  rankCandidates h currentUser candidates =
    ([NetworkCall request; ConsoleError "Gemini ranking error:" e],
     Normal (fallback "Ranking failed" candidates)).
Proof.
  intros Hk Hc. unfold rankCandidates. rewrite Hk. simpl.
  fold request. rewrite Hc. reflexivity.
Qed.

Lemma run_parse_throws (response : Response) (e : exn) :
  truthy_string (apiKey h) = true ->
  generateContent h request = Normal response ->
  JSON_parse h (or_default truthy_string (text response) "[]") = Throw e ->
  rankCandidates h currentUser candidates =
    ([NetworkCall request; ConsoleError "Gemini ranking error:" e],
     Normal (fallback "Ranking failed" candidates)).
Proof.
  intros Hk Hc Hp. unfold rankCandidates. rewrite Hk. simpl.
  fold request. rewrite Hc. simpl. rewrite Hp. reflexivity.
Qed.

Lemma run_ranked (response : Response) (rankedData : list RankEntry) :
  truthy_string (apiKey h) = true ->
  generateContent h request = Normal response ->
  JSON_parse h (or_default truthy_string (text response) "[]") = Normal rankedData ->
  rankCandidates h currentUser candidates =
    ([NetworkCall request],
     Normal (Array_sort byScoreDesc (merge rankedData candidates))).
Proof.
  intros Hk Hc Hp. unfold rankCandidates. rewrite Hk. simpl.
  fold request. rewrite Hc. simpl. rewrite Hp. reflexivity.
Qed.

(** Every run resolves, in one of three shapes. *)
Lemma run_shapes :
  (exists reason,
      settled (rankCandidates h currentUser candidates) =
        Normal (fallback reason candidates)) \/
  (exists response rankedData,
    generateContent h request = Normal response /\
    JSON_parse h (or_default truthy_string (text response) "[]") = Normal rankedData /\
    settled (rankCandidates h currentUser candidates) =
      Normal (Array_sort byScoreDesc (merge rankedData candidates))).
Proof.
  destruct (truthy_string (apiKey h)) eqn:Hk.
  - destruct (generateContent h request) as [response|e] eqn:Hc.
    + destruct (JSON_parse h (or_default truthy_string (text response) "[]"))
        as [rankedData|e] eqn:Hp.
      * right. exists response, rankedData.
      split; [reflexivity|]. split; [exact Hp|].
      rewrite (run_ranked Hk Hc Hp). reflexivity.
      * left. eexists. rewrite (run_parse_throws Hk Hc Hp). reflexivity.
    + left. eexists. rewrite (run_call_throws Hk Hc). reflexivity.
  - left. eexists. rewrite (run_without_key Hk). reflexivity.
Qed.
End RankerFacts.

Section MergeFacts.
Import JS Ranker.
Local Open Scope string_scope.

Variable rankedData : list RankEntry.

Lemma merge_base (candidates : list User) :
  map base (merge rankedData candidates) = candidates.
Proof.
  unfold merge. rewrite map_map. simpl. apply map_id.
Qed.

Lemma merge_ruid (candidates : list User) :
  map ruid (merge rankedData candidates) = map uid candidates.
Proof.
  unfold merge. rewrite map_map. reflexivity.
Qed.

Lemma fallback_ruid (reason : string) (candidates : list User) :
  map ruid (fallback reason candidates) = map uid candidates.
Proof.
  unfold fallback. rewrite map_map. reflexivity.
Qed.


Lemma find_none (u : string) :
  noneWithUid u rankedData ->
  Array_find (fun r => String.eqb (entry_uid r) u) rankedData = None.
Proof.
  unfold noneWithUid, Array_find. intros Hn.
  induction Hn as [|x l Hx _ IH]; simpl.
  - reflexivity.
  - apply String.eqb_neq in Hx. rewrite Hx. exact IH.
Qed.

(** A merged score is zero or the score of an entry of the response. *)
Lemma mergeOne_score (c : User) :
  compatibilityScore (mergeOne rankedData c) = Finite 0 \/
  exists e, In e rankedData /\
            compatibilityScore (mergeOne rankedData c) = entry_compatibilityScore e.
Proof.
  unfold mergeOne, Array_find. simpl.
  destruct (find _ rankedData) as [e|] eqn:E; simpl.
  - destruct (truthy_number (entry_compatibilityScore e)).
    + right. exists e. split; [|reflexivity].
      apply find_some in E. tauto.
    + left. reflexivity.
  - left. reflexivity.
Qed.
End MergeFacts.

Section ScoreFacts.
Import JS Ranker.

Lemma zero_in_range : scoreInRange (Finite 0).
Proof.
  split; numerals.
Qed.

Lemma fallback_scores (reason : string) (candidates : list User) :
  Forall (fun r => compatibilityScore r = Finite 0) (fallback reason candidates).
Proof.
  unfold fallback. apply Forall_forall. intros r Hr.
  apply in_map_iff in Hr. destruct Hr as (c & <- & _). reflexivity.
Qed.

Lemma all_zero_sorted (l : list RankedUser) :
  Forall (fun r => compatibilityScore r = Finite 0) l -> sortedByScoreDesc l.
Proof.
  unfold sortedByScoreDesc. induction 1 as [|r l Hr Hl IH]; constructor.
  - exact IH.
  - apply Forall_forall. intros r' Hr'.
    rewrite Forall_forall in Hl. rewrite (Hl r' Hr'), Hr.
    simpl. apply Qle_refl.
Qed.

Lemma sorted_by_comparator (l : list RankedUser) :
  sortedByScoreDesc (Array_sort byScoreDesc l).
Proof.
  unfold sortedByScoreDesc. apply Sorted_StronglySorted.
  - intros x y z Hxy Hyz. eapply le_trans; eassumption.
  - apply Array_sort_Sorted.
    + intros x y Hc. unfold comes_after, byScoreDesc in Hc.
      rewrite sub_positive in Hc. apply lt_le, gt_lt. exact Hc.
    + intros x y Hc. unfold comes_after, byScoreDesc in Hc.
      rewrite sub_positive in Hc. apply gt_false_le. exact Hc.
Qed.
End ScoreFacts.

(* ================================================================== *)
(** * The candidate ranker: the claims *)
(* ================================================================== *)

Import JS Ranker Scenarios.
Local Open Scope string_scope.
Unset Implicit Arguments.

(** The scenario of the specification: candidates "a" and "b", the model
    ranks only "b". *)
Example ranked_b_then_a :
  rankCandidates (hostReplying [("b", 90%Z, "great fit")]) u1 [candA; candB] =
    ([NetworkCall (buildRequest (buildPrompt u1 [candA; candB]))],
     Normal [ {| base := candB; compatibilityScore := of_Z 90;
                 rankingReason := "great fit" |};
              {| base := candA; compatibilityScore := Finite 0;
                 rankingReason := "No specific reason provided" |} ]).
Proof.
  reflexivity.
Qed.

(** C1: for every host (with or without a credential, whatever the model
    answers, whatever is thrown), every current user and every candidate
    list, also the empty one, the promise returned by [rankCandidates]
    resolves, to a list that has the length of the candidate list and carries
    the same set of [uid]s. *)
Theorem rank_resolves_with_same_candidates :
  forall (h : Host) (currentUser : User) (candidates : list User),
  exists out,
    settled (rankCandidates h currentUser candidates) = Normal out /\
    List.length out = List.length candidates /\
    sameUids out candidates.
Proof.
  intros h u C.
  destruct (run_shapes h u C) as [(reason & ->) | (response & rd & _ & _ & ->)];
    eexists; (split; [reflexivity|]); split.
  - unfold fallback. apply length_map.
  - intros x. rewrite fallback_ruid. reflexivity.
  - rewrite (Permutation_length (Array_sort_perm byScoreDesc (merge rd C))).
    unfold merge. apply length_map.
  - intros x. rewrite <- (merge_ruid rd C).
    pose proof (Permutation_map ruid (Array_sort_perm byScoreDesc (merge rd C))) as P.
    split; apply Permutation_in; [exact P | apply Permutation_sym, P].
Qed.

(** C2: with a credential configured, if the call to the model throws, or it
    answers and parsing the answer throws, the promise still resolves, to
    every candidate unchanged in its own fields, in the order given, with
    score 0 and the reason "Ranking failed". *)
Theorem rank_failure_falls_back :
  forall (h : Host) (currentUser : User) (candidates : list User) (e : exn),
    truthy_string (apiKey h) = true ->
    (generateContent h (buildRequest (buildPrompt currentUser candidates)) = Throw e \/
     exists response,
       generateContent h (buildRequest (buildPrompt currentUser candidates))
         = Normal response /\
       JSON_parse h (or_default truthy_string (text response) "[]") = Throw e) ->
    settled (rankCandidates h currentUser candidates) =
      Normal (map (fun c => {| base := c;
                               compatibilityScore := Finite 0;
                               rankingReason := "Ranking failed" |}) candidates).
Proof.
  intros h u C e Hk [Hc | (response & Hc & Hp)].
  - rewrite (run_call_throws _ _ _ Hk Hc). reflexivity.
  - rewrite (run_parse_throws _ _ _ Hk Hc Hp). reflexivity.
Qed.

(** C2 at work: a host whose model cannot be reached, and one whose model
    answers with text that is not JSON. *)
Lemma rank_failure_falls_back_witness :
  settled (rankCandidates hostUnreachable u1 [candA; candB]) =
    Normal [ {| base := candA; compatibilityScore := Finite 0;
                rankingReason := "Ranking failed" |};
             {| base := candB; compatibilityScore := Finite 0;
                rankingReason := "Ranking failed" |} ] /\
  settled (rankCandidates hostGarbled u1 [candA; candB]) =
    Normal [ {| base := candA; compatibilityScore := Finite 0;
                rankingReason := "Ranking failed" |};
             {| base := candB; compatibilityScore := Finite 0;
                rankingReason := "Ranking failed" |} ].
Proof.
  split.
  - apply (rank_failure_falls_back hostUnreachable u1 [candA; candB]
             (NetworkError "fetch failed")).
    + reflexivity.
    + left. reflexivity.
  - apply (rank_failure_falls_back hostGarbled u1 [candA; candB]
             (SyntaxError "Unexpected token")).
    + reflexivity.
    + right. exists {| text := Some "Sorry, I cannot" |}. split; reflexivity.
Defined.

(** C3: when the credential is the empty string, whatever the current user
    and the candidates are, the promise resolves to every candidate with
    score 0 and the reason "AI ranking unavailable", and the run makes no
    network call. *)
Theorem rank_without_credential :
  forall (h : Host) (currentUser : User) (candidates : list User),
    apiKey h = "" ->
    settled (rankCandidates h currentUser candidates) =
      Normal (map (fun c => {| base := c;
                               compatibilityScore := Finite 0;
                               rankingReason := "AI ranking unavailable" |})
                  candidates) /\
    noNetworkCall (trace (rankCandidates h currentUser candidates)).
Proof.
  intros h u C Hk.
  assert (Hf : truthy_string (apiKey h) = false) by (rewrite Hk; reflexivity).
  rewrite (run_without_key h u C Hf). split.
  - reflexivity.
  - intros request [Hin | []]. discriminate Hin.
Qed.

(** C3 at work: a host with no credential in its environment. *)
Lemma rank_without_credential_witness :
  settled (rankCandidates hostWithoutKey u1 [candA; candB]) =
    Normal [ {| base := candA; compatibilityScore := Finite 0;
                rankingReason := "AI ranking unavailable" |};
             {| base := candB; compatibilityScore := Finite 0;
                rankingReason := "AI ranking unavailable" |} ] /\
  noNetworkCall (trace (rankCandidates hostWithoutKey u1 [candA; candB])).
Proof.
  apply (rank_without_credential hostWithoutKey u1 [candA; candB]). reflexivity.
Defined.

(** On answers read at the types of the response schema, where every score
    is a number: for every host and every candidate list, the list the
    promise resolves to is non-increasing in [compatibilityScore]. *)
Theorem rank_sorted_descending :
  forall (h : Host) (currentUser : User) (candidates : list User),
  exists out,
    settled (rankCandidates h currentUser candidates) = Normal out /\
    sortedByScoreDesc out.
Proof.
  intros h u C.
  destruct (run_shapes h u C) as [(reason & ->) | (response & rd & _ & _ & ->)];
    eexists; (split; [reflexivity|]).
  - apply all_zero_sorted, fallback_scores.
  - apply sorted_by_comparator.
Qed.

(** C5, as stated, fails: the model answers with a score of 150 for the only
    candidate, and the promise resolves to that candidate with score 150,
    which lies outside [0,100]. *)
Lemma score_150_is_returned :
  settled (rankCandidates (hostReplying [("a", 150%Z, "strong match")]) u1 [candA]) =
    Normal [ {| base := candA;
                compatibilityScore := of_Z 150;
                rankingReason := "strong match" |} ] /\
  ~ scoreInRange (of_Z 150).
Proof.
  split.
  - reflexivity.
  - intros [_ H]. revert H. numerals.
Qed.

(** C5, amended: scores are passed through, not clamped.  If every entry of
    the parsed response has its score in [0,100], then the promise resolves
    to a list whose scores all lie in [0,100]; and in the merge a candidate
    whose [uid] no entry carries gets score 0. *)
Theorem rank_scores_in_range_if_entries_are :
  forall (h : Host) (currentUser : User) (candidates : list User),
    (forall response entries,
        generateContent h (buildRequest (buildPrompt currentUser candidates))
          = Normal response ->
        JSON_parse h (or_default truthy_string (text response) "[]")
          = Normal entries ->
        Forall (fun e => scoreInRange (entry_compatibilityScore e)) entries) ->
    (exists out,
        settled (rankCandidates h currentUser candidates) = Normal out /\
        Forall (fun r => scoreInRange (compatibilityScore r)) out) /\
    (forall rankedData c,
        noneWithUid (uid c) rankedData ->
        compatibilityScore (mergeOne rankedData c) = Finite 0).
Proof.
  intros h u C Hrange. split.
  - destruct (run_shapes h u C) as [(reason & ->) | (response & rd & Hc & Hp & ->)];
      eexists; (split; [reflexivity|]).
    + eapply Forall_impl; [|apply fallback_scores].
      intros r ->. apply zero_in_range.
    + apply (Permutation_Forall
               (Permutation_sym (Array_sort_perm byScoreDesc (merge rd C)))).
      apply Forall_forall. intros r Hr.
      apply in_map_iff in Hr. destruct Hr as (c & <- & _).
      destruct (mergeOne_score rd c) as [-> | (e & He & ->)].
      * apply zero_in_range.
      * specialize (Hrange response rd Hc Hp). rewrite Forall_forall in Hrange.
        apply Hrange. exact He.
  - intros rd c Hn. unfold mergeOne. rewrite (find_none Hn). reflexivity.
Qed.

(** C5, amended, at work: the model scores "b" with 90. *)
Lemma rank_scores_in_range_if_entries_are_witness :
  (exists out,
      settled (rankCandidates (hostReplying [("b", 90%Z, "great fit")]) u1 [candA; candB])
        = Normal out /\
      Forall (fun r => scoreInRange (compatibilityScore r)) out) /\
  (forall rankedData c,
      noneWithUid (uid c) rankedData ->
      compatibilityScore (mergeOne rankedData c) = Finite 0).
Proof.
  apply (rank_scores_in_range_if_entries_are
           (hostReplying [("b", 90%Z, "great fit")]) u1 [candA; candB]).
    intros response entries Hc Hp.
  injection Hc as <-. injection Hp as <-.
  constructor; [|constructor].
  split; numerals.
Defined.




(* ================================================================== *)
(** * The map presenter: the claims *)
(* ================================================================== *)

Import MapView.

Lemma Array_includes_In (l : list string) (x : string) :
  Array_includes l x = true <-> In x l.
Proof.
  unfold Array_includes. rewrite existsb_exists. split.
  - intros (y & Hy & E). apply String.eqb_eq in E. subst. exact Hy.
  - intros H. exists x. split; [exact H | apply String.eqb_refl].
Qed.

Lemma Array_includes_not_In (l : list string) (x : string) :
  Array_includes l x = false <-> ~ In x l.
Proof.
  rewrite <- Array_includes_In. destruct (Array_includes l x); split; congruence.
Qed.

(** C7: for every party and every current user, the join button is
    "Joined" and disabled when the user's id is among the party's members;
    otherwise "Full" and disabled when the current player count is at least
    the maximum; otherwise "Join Party" and enabled. *)
Theorem join_button_state :
  forall (props : MapViewProps) (party : Party),
    (In (currentUser props) (members party) ->
       btn_text (getButtonState props party) = "Joined" /\
       disabled (getButtonState props party) = true) /\
    (~ In (currentUser props) (members party) ->
     le (playersMax party) (playersCurrent party) ->
       btn_text (getButtonState props party) = "Full" /\
       disabled (getButtonState props party) = true) /\
    (~ In (currentUser props) (members party) ->
     lt (playersCurrent party) (playersMax party) ->
       btn_text (getButtonState props party) = "Join Party" /\
       disabled (getButtonState props party) = false).
Proof.
  intros props party. unfold getButtonState.
  destruct (Array_includes (members party) (currentUser props)) eqn:Ej.
  - apply Array_includes_In in Ej.
    repeat split; intros; try reflexivity; contradiction.
  - apply Array_includes_not_In in Ej.
    destruct (ge (playersCurrent party) (playersMax party)) eqn:Ef.
    + apply ge_le in Ef.
      split; [intros; contradiction|].
      split; [intros; split; reflexivity|].
      intros _ Hlt. destruct (lt_not_le _ _ Hlt Ef).
    + split; [intros; contradiction|].
      split; [|intros; split; reflexivity].
      intros _ Hle. apply ge_le in Hle. congruence.
Qed.

(** C7 at work, the scenario of the specification: ten of ten players; the
    current user is not a member, then is one. *)
Lemma join_button_state_witness :
  (btn_text (getButtonState (readyProps [] [] "me") (party 10 10 ["x"; "y"])) = "Full" /\
   disabled (getButtonState (readyProps [] [] "me") (party 10 10 ["x"; "y"])) = true) /\
  (btn_text (getButtonState (readyProps [] [] "me") (party 10 10 ["x"; "me"])) = "Joined" /\
   disabled (getButtonState (readyProps [] [] "me") (party 10 10 ["x"; "me"])) = true).
Proof.
  split.
  - apply (join_button_state (readyProps [] [] "me") (party 10 10 ["x"; "y"])).
    + simpl. intros [H | [H | []]]; discriminate H.
    + numerals.
  - apply (join_button_state (readyProps [] [] "me") (party 10 10 ["x"; "me"])).
    simpl. right. left. reflexivity.
Defined.

(** A click on the map surface clears the party slot and nothing else. *)
Lemma map_click_effect (props : MapViewProps) (s : ViewState) :
  mode props = Ready ->
  handle props s MapClick =
    Some {| map_ready := map_ready s;
            selectedParty := None;
            selectedCandidate := selectedCandidate s |}.
Proof.
  intros Hm. unfold handle. rewrite Hm. reflexivity.
Qed.

(** The close control of each panel clears its own slot and leaves the
    other one as it is. *)
Lemma panel_close_effect (props : MapViewProps) (s : ViewState) :
  mode props = Ready ->
  (forall p, selectedParty s = Some p ->
     handle props s PartyPanelClose =
       Some {| map_ready := map_ready s;
               selectedParty := None;
               selectedCandidate := selectedCandidate s |}) /\
  (forall c, selectedCandidate s = Some c ->
     handle props s CandidatePanelClose =
       Some {| map_ready := map_ready s;
               selectedParty := selectedParty s;
               selectedCandidate := None |}).
Proof.
  intros Hm. unfold handle. rewrite Hm.
  split; intros x Hx; rewrite Hx; reflexivity.
Qed.

(** C8: in the ready state, with a candidate panel and a party panel open, a
    click on the map surface clears the party slot; the candidate slot still
    holds the candidate, where the claim has it cleared. *)
Theorem map_click_keeps_candidate :
  handle (readyProps [party 3 10 ["x"]] [ranked candA 90 "great fit"] "me")
         {| map_ready := true;
            selectedParty := Some (party 3 10 ["x"]);
            selectedCandidate := Some (ranked candA 90 "great fit") |}
         MapClick =
    Some {| map_ready := true;
            selectedParty := None;
            selectedCandidate := Some (ranked candA 90 "great fit") |}.
Proof.
  reflexivity.
Qed.

(** C9, as stated, fails: a score of exactly 50 gets the neutral colour, not
    the colour of the middle band. *)
Lemma score_50_is_neutral :
  fill (getCandidateMarkerIcon (of_Z 50)) = "#6b7280" /\
  fill (getCandidateMarkerIcon (of_Z 50)) <> "#3b82f6".
Proof.
  split; [reflexivity | discriminate].
Qed.

(** C9, amended: the colour of a candidate marker depends on the score
    alone: "#f59e0b" for a score above 80, "#3b82f6" for a score above 50
    and at most 80, and the neutral "#6b7280" for a score of at most 50,
    50 itself included. *)
Theorem candidate_marker_colour_bands :
  forall score : number,
    (lt (of_Z 80) score ->
       fill (getCandidateMarkerIcon score) = "#f59e0b") /\
    (lt (of_Z 50) score -> le score (of_Z 80) ->
       fill (getCandidateMarkerIcon score) = "#3b82f6") /\
    (le score (of_Z 50) ->
       fill (getCandidateMarkerIcon score) = "#6b7280").
Proof.
  intros score. unfold getCandidateMarkerIcon. repeat split.
  - intros H. apply gt_lt in H. rewrite H. reflexivity.
  - intros H50 H80. apply gt_lt in H50. apply gt_false_le in H80.
    rewrite H80, H50. reflexivity.
  - intros H50.
    assert (H80 : le score (of_Z 80)).
    { apply le_trans with (of_Z 50); [exact H50|].
      numerals. }
    apply gt_false_le in H50. apply gt_false_le in H80.
    rewrite H80, H50. reflexivity.
Qed.

(** C9, amended, at work on both sides of the two thresholds. *)
Lemma candidate_marker_colour_bands_witness :
  fill (getCandidateMarkerIcon (of_Z 81)) = "#f59e0b" /\
  fill (getCandidateMarkerIcon (of_Z 80)) = "#3b82f6" /\
  fill (getCandidateMarkerIcon (of_Z 51)) = "#3b82f6" /\
  fill (getCandidateMarkerIcon (of_Z 50)) = "#6b7280".
Proof.
  split; [|split; [|split]].
  - apply (candidate_marker_colour_bands (of_Z 81)).
    numerals.
  - apply (candidate_marker_colour_bands (of_Z 80)).
    + numerals.
    + numerals.
  - apply (candidate_marker_colour_bands (of_Z 51)).
    + numerals.
    + numerals.
  - apply (candidate_marker_colour_bands (of_Z 50)).
    numerals.
Defined.

Section RenderFacts.
Variables (props : MapViewProps) (selected : Party).

Lemma renderJoinButton_joined :
  In (currentUser props) (members selected) ->
  renderJoinButton props selected = Throw (ReferenceError "CheckCircle").
Proof.
  intros Hin. apply Array_includes_In in Hin.
  unfold renderJoinButton, getButtonState. rewrite Hin. reflexivity.
Qed.

Lemma renderJoinButton_not_joined :
  ~ In (currentUser props) (members selected) ->
  exists button, renderJoinButton props selected = Normal button.
Proof.
  intros Hout. apply Array_includes_not_In in Hout.
  unfold renderJoinButton, getButtonState. rewrite Hout.
  destruct (ge (playersCurrent selected) (playersMax selected));
    eexists; reflexivity.
Qed.

(** Everything in the panel above the join button resolves. *)
Lemma renderPartyPanel_join :
  exists icons,
    renderPartyPanel props selected =
      match renderJoinButton props selected with
      | Throw e => Throw e
      | Normal join =>
          Normal {| pp_title := title selected; pp_icons := icons; pp_join := join |}
      end.
Proof.
  unfold renderPartyPanel.
  destruct (truthy_optional (venueName selected)),
           (is_some (distance selected)),
           (truthy_optional (travelTime selected));
    eexists; reflexivity.
Qed.
End RenderFacts.

(** C10: [CheckCircle] is not among the names bound in the file.  In the
    ready state with a party selected, rendering throws a reference error on
    [CheckCircle] when the current user is among the party's members (the
    "Joined" button), and returns a view when the user is not (the "Full"
    and "Join Party" buttons). *)
Theorem joined_panel_fails_to_render :
  forall (props : MapViewProps) (s : ViewState) (party : Party),
    mode props = Ready ->
    selectedParty s = Some party ->
    ~ In "CheckCircle" scope /\
    (In (currentUser props) (members party) ->
       btn_text (getButtonState props party) = "Joined" /\
       render props s = Throw (ReferenceError "CheckCircle")) /\
    (~ In (currentUser props) (members party) ->
       btn_text (getButtonState props party) <> "Joined" /\
       exists view, render props s = Normal view).
Proof.
  intros props s party Hm Hs.
  split; [apply Array_includes_not_In; reflexivity|].
  assert (Hr : render props s =
               match renderPartyPanel props party with
               | Normal panel =>
                   match selectedCandidate s with
                   | Some _ =>
                       Normal (MapSurface [Nothing; Nothing; Nothing; Nothing; Nothing; Nothing]
                                 (Some [Nothing; IconElement "Sparkles" 10;
                                        IconElement "UserIcon" 12])
                                 (Some panel))
                   | None =>
                       Normal (MapSurface [Nothing; Nothing; Nothing; Nothing; Nothing; Nothing]
                                 None (Some panel))
                   end
               | Throw e => Throw e
               end).
  { unfold render. rewrite Hm, Hs.
    destruct (selectedCandidate s); simpl;
      destruct (renderPartyPanel props party); reflexivity. }
  rewrite Hr. destruct (renderPartyPanel_join props party) as (icons & ->).
  split.
  - intros Hin. split.
    + apply Array_includes_In in Hin. unfold getButtonState. rewrite Hin. reflexivity.
    + rewrite (renderJoinButton_joined props party Hin). reflexivity.
  - intros Hout. split.
    + apply Array_includes_not_In in Hout. unfold getButtonState. rewrite Hout.
      destruct (ge (playersCurrent party) (playersMax party)); discriminate.
    + destruct (renderJoinButton_not_joined props party Hout) as (button & ->).
      destruct (selectedCandidate s); eexists; reflexivity.
Qed.

(** C10 at work: the same full party, with and without the current user
    among its members. *)
Lemma joined_panel_fails_to_render_witness :
  render (readyProps [party 10 10 ["x"; "me"]] [] "me")
         {| map_ready := true;
            selectedParty := Some (party 10 10 ["x"; "me"]);
            selectedCandidate := None |}
    = Throw (ReferenceError "CheckCircle") /\
  exists view,
    render (readyProps [party 10 10 ["x"; "y"]] [] "me")
           {| map_ready := true;
              selectedParty := Some (party 10 10 ["x"; "y"]);
              selectedCandidate := None |}
      = Normal view.
Proof.
  split.
  - apply (joined_panel_fails_to_render
             (readyProps [party 10 10 ["x"; "me"]] [] "me")
             {| map_ready := true;
                selectedParty := Some (party 10 10 ["x"; "me"]);
                selectedCandidate := None |}
             (party 10 10 ["x"; "me"]) eq_refl eq_refl).
    simpl. right. left. reflexivity.
  - apply (joined_panel_fails_to_render
             (readyProps [party 10 10 ["x"; "y"]] [] "me")
             {| map_ready := true;
                selectedParty := Some (party 10 10 ["x"; "y"]);
                selectedCandidate := None |}
             (party 10 10 ["x"; "y"]) eq_refl eq_refl).
    simpl. intros [H | [H | []]]; discriminate H.
Defined.

(* ================================================================== *)
(** * The candidate ranker: further properties *)
(* ================================================================== *)

Import RankerVocabulary MoreScenarios.

Section TieFacts.
Context {A : Type}.
Variable comparefn : A -> A -> option number.
Variable p : A -> bool.

(** Elements selected by [p] never overtake one another. *)
Hypothesis p_never_after :
  forall x y, p x = true -> p y = true -> comes_after comparefn x y = false.


End TieFacts.

Section RankerMoreFacts.






(** A merged score that is not zero is the score of an entry with the
    candidate's [uid]. *)
Lemma mergeOne_nonzero (rankedData : list RankEntry) (c : User) :
  ~ isZero (compatibilityScore (mergeOne rankedData c)) ->
  exists e, In e rankedData /\ entry_uid e = uid c /\
            entry_compatibilityScore e = compatibilityScore (mergeOne rankedData c).
Proof.
  unfold mergeOne, Array_find. cbn [compatibilityScore spread].
  destruct (find _ rankedData) as [e|] eqn:E; simpl.
  - destruct (truthy_number (entry_compatibilityScore e)).
    + intros _. apply find_some in E. destruct E as [Hin Heq].
      apply String.eqb_eq in Heq. exists e. auto.
    + intros Hnz. exfalso. apply Hnz. simpl. reflexivity.
  - intros Hnz. exfalso. apply Hnz. simpl. reflexivity.
Qed.

(** The runs of a host with a credential, with the outcome of the call and
    of the parse made explicit. *)
Lemma run_shapes_with_key (h : Host) (u : User) (C : list User) :
  truthy_string (apiKey h) = true ->
  (exists e,
      rankCandidates h u C =
        ([NetworkCall (buildRequest (buildPrompt u C));
          ConsoleError "Gemini ranking error:" e],
         Normal (fallback "Ranking failed" C))) \/
  (exists response rankedData,
      generateContent h (buildRequest (buildPrompt u C)) = Normal response /\
      JSON_parse h (or_default truthy_string (text response) "[]")
        = Normal rankedData /\
      rankCandidates h u C =
        ([NetworkCall (buildRequest (buildPrompt u C))],
         Normal (Array_sort byScoreDesc (merge rankedData C)))).
Proof.
  intros Hk.
  destruct (generateContent h (buildRequest (buildPrompt u C)))
    as [response|e] eqn:Hc.
  - destruct (JSON_parse h (or_default truthy_string (text response) "[]"))
      as [rankedData|e] eqn:Hp.
    + right. exists response, rankedData.
      split; [reflexivity|]. split; [exact Hp|].
      apply (run_ranked _ _ _ Hk Hc Hp).
    + left. exists e. apply (run_parse_throws _ _ _ Hk Hc Hp).
  - left. exists e. apply (run_call_throws _ _ _ Hk Hc).
Qed.

Lemma fallback_base (reason : string) (C : list User) :
  map base (fallback reason C) = C.
Proof.
  unfold fallback. rewrite map_map. apply map_id.
Qed.
End RankerMoreFacts.

(** X1: on every path the resolved list holds the candidates' own records,
    each exactly as often as the candidate list does: nothing is dropped,
    duplicated or invented, only reordered. *)
Theorem rank_output_rearranges_candidates :
  forall (h : Host) (currentUser : User) (candidates : list User),
  exists out,
    settled (rankCandidates h currentUser candidates) = Normal out /\
    Permutation (map base out) candidates.
Proof.
  intros h u C.
  destruct (run_shapes h u C) as [(reason & ->) | (response & rd & _ & _ & ->)];
    eexists; (split; [reflexivity|]).
  - rewrite fallback_base. apply Permutation_refl.
  - rewrite <- (merge_base rd C) at 2.
    apply Permutation_map, Array_sort_perm.
Qed.






(** X5: a score other than 0 is never made up: if an element of the resolved
    list has a non-zero score, then a credential is configured, the call and
    the parse succeeded, and the parsed answer has an entry with that
    element's [uid] and exactly that score. *)
Theorem nonzero_score_comes_from_an_entry :
  forall (h : Host) (currentUser : User) (candidates : list User),
  exists out,
    settled (rankCandidates h currentUser candidates) = Normal out /\
    forall r,
      In r out ->
      ~ isZero (compatibilityScore r) ->
      truthy_string (apiKey h) = true /\
      exists response rankedData e,
        generateContent h (buildRequest (buildPrompt currentUser candidates))
          = Normal response /\
        JSON_parse h (or_default truthy_string (text response) "[]")
          = Normal rankedData /\
        In e rankedData /\
        entry_uid e = ruid r /\
        entry_compatibilityScore e = compatibilityScore r.
Proof.
  intros h u C.
  destruct (truthy_string (apiKey h)) eqn:Hk.
  - destruct (run_shapes_with_key h u C Hk)
      as [(e & ->) | (response & rd & Hc & Hp & ->)];
      eexists; (split; [reflexivity|]); intros r Hr Hnz.
    + exfalso. apply in_map_iff in Hr. destruct Hr as (c & <- & _).
      apply Hnz. simpl. reflexivity.
    + split; [reflexivity|].
      apply (Permutation_in _ (Array_sort_perm byScoreDesc (merge rd C))) in Hr.
      apply in_map_iff in Hr. destruct Hr as (c & <- & _).
      destruct (mergeOne_nonzero rd c Hnz) as (e & Hin & Hu & Hs).
      exists response, rd, e. auto.
  - rewrite (run_without_key h u C Hk).
    eexists. split; [reflexivity|]. intros r Hr Hnz.
    exfalso. apply in_map_iff in Hr. destruct Hr as (c & <- & _).
    apply Hnz. simpl. reflexivity.
Qed.

(** X6: a run calls the model at most once and never retries: with a
    credential the log holds exactly one network call, carrying the request
    built from the current user and the candidates; without one it holds
    none. *)
Theorem rank_calls_the_model_once :
  forall (h : Host) (currentUser : User) (candidates : list User),
    filter isNetworkCall (trace (rankCandidates h currentUser candidates)) =
      if truthy_string (apiKey h)
      then [NetworkCall (buildRequest (buildPrompt currentUser candidates))]
      else [].
Proof.
  intros h u C.
  destruct (truthy_string (apiKey h)) eqn:Hk.
  - destruct (run_shapes_with_key h u C Hk)
      as [(e & ->) | (response & rd & _ & _ & ->)]; reflexivity.
  - rewrite (run_without_key h u C Hk). reflexivity.
Qed.

(** X7: the request sent to the model shows, of the current user, only the
    preferred sports, the skill level and the location mode, and, of each
    candidate, only [uid], display name, preferred sports, skill level,
    location mode and visibility: users that agree on these give the same
    request, whatever their coordinates, user names and avatars. *)
Theorem request_hides_everything_else :
  forall (u u' : User) (C C' : list User),
    sameAsCurrentUser u u' ->
    Forall2 sameAsCandidate C C' ->
    buildRequest (buildPrompt u C) = buildRequest (buildPrompt u' C').
Proof.
  intros u u' C C' (Hs & Hl & Hm) HC.
  unfold buildRequest, buildPrompt. rewrite Hs, Hl, Hm.
  do 2 f_equal.
  induction HC as [|c c' C C' (H1 & H2 & H3 & H4 & H5 & H6) _ IH]; [reflexivity|].
  cbn [map]. rewrite H1, H2, H3, H4, H5, H6, IH. reflexivity.
Qed.

(** X7 at work: the same people, seen at other coordinates and under
    other user names. *)
Lemma request_hides_everything_else_witness :
  buildRequest (buildPrompt u1 [candA; candB]) =
  buildRequest (buildPrompt (moved u1) [moved candA; moved candB]).
Proof.
  apply (request_hides_everything_else u1 (moved u1)
           [candA; candB] [moved candA; moved candB]).
  - repeat split.
  - repeat constructor.
Defined.

Import Presenter.

(** X8: when ranking is degraded (no credential, a call that throws, or an
    answer whose parse throws) and the resolved list is handed to the map,
    every candidate marker has the neutral colour. *)
Theorem degraded_ranking_gives_neutral_markers :
  forall (h : Host) (currentUser : User) (cs : list User) (props : MapViewProps),
    (truthy_string (apiKey h) = false \/
     (exists e, generateContent h (buildRequest (buildPrompt currentUser cs)) = Throw e) \/
     (exists response e,
        generateContent h (buildRequest (buildPrompt currentUser cs)) = Normal response /\
        JSON_parse h (or_default truthy_string (text response) "[]") = Throw e)) ->
    settled (rankCandidates h currentUser cs) = Normal (candidates props) ->
    Forall (fun m => fill (cm_icon m) = "#6b7280") (candidateMarkers props).
Proof.
  intros h u C props Hdeg Hout.
  assert (Hf : exists reason, candidates props = fallback reason C).
  { destruct (truthy_string (apiKey h)) eqn:Hk.
    - destruct Hdeg as [Hno | [(e & Hc) | (response & e & Hc & Hp)]].
      + discriminate Hno.
      + rewrite (run_call_throws _ _ _ Hk Hc) in Hout.
        injection Hout as <-. eexists. reflexivity.
      + rewrite (run_parse_throws _ _ _ Hk Hc Hp) in Hout.
        injection Hout as <-. eexists. reflexivity.
    - rewrite (run_without_key h u C Hk) in Hout.
      injection Hout as <-. eexists. reflexivity. }
  destruct Hf as (reason & Hf).
  unfold candidateMarkers. rewrite Hf.
  apply Forall_forall. intros m Hm.
  apply in_map_iff in Hm. destruct Hm as (r & <- & Hr).
  apply in_map_iff in Hr. destruct Hr as (c & <- & _). reflexivity.
Qed.

(** X8 at work: the model cannot be reached. *)
Lemma degraded_ranking_gives_neutral_markers_witness :
  Forall (fun m => fill (cm_icon m) = "#6b7280")
    (candidateMarkers
       (readyProps [] [ranked candA 0 "Ranking failed";
                       ranked candB 0 "Ranking failed"] "me")).
Proof.
  apply (degraded_ranking_gives_neutral_markers hostUnreachable u1 [candA; candB]).
  - right. left. exists (NetworkError "fetch failed"). reflexivity.
  - reflexivity.
Defined.

(** X9: when the candidates' [uid]s are pairwise distinct and the resolved
    list is handed to the map, there is one candidate marker per candidate
    and the markers' keys are pairwise distinct. *)
Theorem ranked_marker_keys_are_distinct :
  forall (h : Host) (currentUser : User) (cs : list User) (props : MapViewProps),
    NoDup (map uid cs) ->
    settled (rankCandidates h currentUser cs) = Normal (candidates props) ->
    NoDup (map cm_key (candidateMarkers props)) /\
    List.length (candidateMarkers props) = List.length cs.
Proof.
  intros h u C props Hnd Hout.
  assert (Hp : Permutation (map base (candidates props)) C).
  { destruct (run_shapes h u C) as [(reason & E) | (response & rd & _ & _ & E)];
      rewrite E in Hout; injection Hout as <-.
    - rewrite fallback_base. apply Permutation_refl.
    - rewrite <- (merge_base rd C) at 2.
      apply Permutation_map, Array_sort_perm. }
  split.
  - unfold candidateMarkers. rewrite map_map. cbn [cm_key].
    rewrite <- (map_map base uid).
    apply (Permutation_NoDup (Permutation_sym (Permutation_map uid Hp))). exact Hnd.
  - unfold candidateMarkers. rewrite length_map.
    rewrite <- (length_map base). apply Permutation_length, Hp.
Qed.

(** X9 at work: two candidates, ranked by the model. *)
Lemma ranked_marker_keys_are_distinct_witness :
  NoDup (map cm_key
           (candidateMarkers
              (readyProps [] [ranked candB 90 "great fit";
                              ranked candA 0 "No specific reason provided"] "me"))) /\
  List.length
    (candidateMarkers
       (readyProps [] [ranked candB 90 "great fit";
                       ranked candA 0 "No specific reason provided"] "me")) =
  List.length [candA; candB].
Proof.
  apply (ranked_marker_keys_are_distinct
           (hostReplying [("b", 90%Z, "great fit")]) u1 [candA; candB]).
  - repeat constructor; simpl; intuition discriminate.
  - reflexivity.
Defined.

(* ================================================================== *)
(** * The map presenter: further properties *)
(* ================================================================== *)

Section PresenterFacts.

Lemma ge_false_lt (x y : number) : ge x y = false -> lt x y.
Proof.
  destruct x as [|a|], y as [|b|]; simpl; try discriminate; auto.
  intros H. apply Qle_bool_false. exact H.
Qed.

Lemma ownProperty_none (o : list (string * string)) (k : string) :
  ~ In k (map fst o) -> ownProperty o k = None.
Proof.
  induction o as [|[k' v] o IH]; simpl; intros Hn; [reflexivity|].
  destruct (String.eqb k' k) eqn:E.
  - apply String.eqb_eq in E. tauto.
  - apply IH. tauto.
Qed.

(** *** Percent escapes *)

Lemma hexDigit_hexValue (k : nat) : (k < 16)%nat -> hexValue (hexDigit k) = Some k.
Proof.
  intros Hk. do 16 (destruct k as [|k]; [reflexivity|]). lia.
Qed.

Lemma unreserved_not_percent (c : ascii) :
  unreserved c = true -> Ascii.eqb c "%" = false.
Proof.
  intros Hu. destruct (Ascii.eqb c "%") eqn:E; [|reflexivity].
  apply Ascii.eqb_eq in E. subst c. discriminate Hu.
Qed.

Lemma byte_high_low (c : ascii) :
  (nat_of_ascii c / 16 < 16)%nat /\ (nat_of_ascii c mod 16 < 16)%nat /\
  ascii_of_nat (16 * (nat_of_ascii c / 16) + nat_of_ascii c mod 16) = c.
Proof.
  pose proof (nat_ascii_bounded c) as Hb. repeat split.
  - apply Nat.Div0.div_lt_upper_bound. lia.
  - apply Nat.mod_upper_bound. lia.
  - rewrite <- (Nat.div_mod_eq (nat_of_ascii c) 16). apply ascii_nat_embedding.
Qed.

Lemma escapeBytes_step (c : ascii) (s : string) :
  unreserved c = false ->
  escapeBytes (String c s) =
    String "%" (String (hexDigit (nat_of_ascii c / 16))
                       (String (hexDigit (nat_of_ascii c mod 16)) (escapeBytes s))).
Proof.
  intros E. cbn [escapeBytes]. rewrite E. reflexivity.
Qed.

(** Every percent sign the encoder writes starts an escape. *)
Lemma escapeBytes_wellEscaped (s : string) : wellEscaped (escapeBytes s).
Proof.
  induction s as [|c s IH]; [exact I|].
  destruct (unreserved c) eqn:E.
  - cbn [escapeBytes]. rewrite E. cbn [wellEscaped].
    rewrite (unreserved_not_percent c E). split; [exact E | exact IH].
  - rewrite (escapeBytes_step c s E). cbn [wellEscaped].
    destruct (byte_high_low c) as (Hh & Hl & _).
    rewrite (hexDigit_hexValue _ Hh), (hexDigit_hexValue _ Hl).
    replace (Ascii.eqb "%" "%") with true by reflexivity.
    repeat split; try discriminate. exact IH.
Qed.

(** Decoding gives the bytes back. *)
Lemma percentDecode_escapeBytes (s : string) :
  percentDecode (escapeBytes s) = Some s.
Proof.
  induction s as [|c s IH]; [reflexivity|].
  destruct (unreserved c) eqn:E.
  - cbn [escapeBytes]. rewrite E. cbn [percentDecode].
    rewrite (unreserved_not_percent c E), IH. reflexivity.
  - rewrite (escapeBytes_step c s E). cbn [percentDecode].
    destruct (byte_high_low c) as (Hh & Hl & Hc).
    replace (Ascii.eqb "%" "%") with true by reflexivity.
    rewrite (hexDigit_hexValue _ Hh), (hexDigit_hexValue _ Hl), IH, Hc.
    reflexivity.
Qed.

Lemma escapeBytes_nonempty (s : string) : s <> "" -> escapeBytes s <> "".
Proof.
  destruct s as [|c s]; [congruence|]. intros _. cbn [escapeBytes].
  destruct (unreserved c); discriminate.
Qed.

(** *** Rendering *)

Lemma render_ready (props : MapViewProps) (s : ViewState) :
  mode props = Ready ->
  render props s =
    let markers := [Nothing; Nothing; Nothing; Nothing; Nothing; Nothing] in
    let candidatePanel :=
      match selectedCandidate s with
      | Some _ => Some [Nothing; IconElement "Sparkles" 10; IconElement "UserIcon" 12]
      | None => None
      end in
    match selectedParty s with
    | None => Normal (MapSurface markers candidatePanel None)
    | Some selected =>
        match renderPartyPanel props selected with
        | Normal panel => Normal (MapSurface markers candidatePanel (Some panel))
        | Throw e => Throw e
        end
    end.
Proof.
  intros Hm. unfold render. rewrite Hm.
  destruct (selectedCandidate s), (selectedParty s) as [selected|]; simpl;
    try reflexivity; destruct (renderPartyPanel props selected); reflexivity.
Qed.

Lemma render_not_ready (props : MapViewProps) (s : ViewState) :
  mode props <> Ready ->
  (exists message icons, render props s = Normal (ErrorView message icons)) \/
  (exists icons, render props s = Normal (LoadingView icons)).
Proof.
  intros Hm. unfold render. destruct (mode props) as [message| |].
  - left. eexists. eexists. reflexivity.
  - right. eexists. reflexivity.
  - congruence.
Qed.

Lemma renderJoinButton_disabled (props : MapViewProps) (selected : Party)
      (button : JoinButton) :
  renderJoinButton props selected = Normal button ->
  jb_disabled button = disabled (getButtonState props selected).
Proof.
  unfold renderJoinButton.
  destruct (sequence _) as [children|e]; intros H; [|discriminate H].
  injection H as <-. reflexivity.
Qed.

(** The panel of a party the current user has not joined. *)
Lemma renderPartyPanel_not_joined (props : MapViewProps) (selected : Party) :
  ~ In (currentUser props) (members selected) ->
  exists panel,
    renderPartyPanel props selected = Normal panel /\
    jb_disabled (pp_join panel) = disabled (getButtonState props selected).
Proof.
  intros Hout.
  destruct (renderPartyPanel_join props selected) as (icons & ->).
  destruct (renderJoinButton_not_joined props selected Hout) as (button & Hb).
  rewrite Hb. eexists. split; [reflexivity|].
  cbn [pp_join]. apply (renderJoinButton_disabled props selected button Hb).
Qed.

Lemma renderPartyPanel_joined (props : MapViewProps) (selected : Party) :
  In (currentUser props) (members selected) ->
  renderPartyPanel props selected = Throw (ReferenceError "CheckCircle").
Proof.
  intros Hin.
  destruct (renderPartyPanel_join props selected) as (icons & ->).
  rewrite (renderJoinButton_joined props selected Hin). reflexivity.
Qed.

Lemma In_members_dec (props : MapViewProps) (selected : Party) :
  In (currentUser props) (members selected) \/
  ~ In (currentUser props) (members selected).
Proof.
  destruct (Array_includes (members selected) (currentUser props)) eqn:E.
  - left. apply Array_includes_In. exact E.
  - right. apply Array_includes_not_In. exact E.
Qed.

(** *** Events *)

Lemma handle_selectionFromProps (props : MapViewProps) (s s' : ViewState)
      (ev : UIEvent) :
  selectionFromProps props s ->
  handle props s ev = Some s' ->
  selectionFromProps props s'.
Proof.
  intros [Hp Hc]. unfold handle.
  destruct (mode props); try discriminate.
  destruct ev as [| | |i|i| |].
  - intros H. injection H as <-. split; assumption.
  - intros H. injection H as <-. split; assumption.
  - intros H. injection H as <-. split; [discriminate | assumption].
  - destruct (nth_error (parties props) i) as [party|] eqn:E; [|discriminate].
    intros H. injection H as <-. split; [|assumption].
    simpl. intros p Hpp. injection Hpp as <-. apply (nth_error_In _ _ E).
  - destruct (nth_error (candidates props) i) as [candidate|] eqn:E; [|discriminate].
    intros H. injection H as <-. split; [assumption|].
    simpl. intros c Hcc. injection Hcc as <-. apply (nth_error_In _ _ E).
  - destruct (selectedCandidate s); [|discriminate].
    intros H. injection H as <-. split; [assumption | discriminate].
  - destruct (selectedParty s); [|discriminate].
    intros H. injection H as <-. split; [discriminate | assumption].
Qed.

Lemma handle_keeps_candidate (props : MapViewProps) (s s' : ViewState)
      (ev : UIEvent) :
  candidateEvent ev = false ->
  handle props s ev = Some s' ->
  selectedCandidate s' = selectedCandidate s.
Proof.
  unfold handle. destruct (mode props); try discriminate.
  destruct ev as [| | |i|i| |]; try discriminate; intros _.
  - intros H. injection H as <-. reflexivity.
  - intros H. injection H as <-. reflexivity.
  - intros H. injection H as <-. reflexivity.
  - destruct (nth_error (parties props) i); [|discriminate].
    intros H. injection H as <-. reflexivity.
  - destruct (selectedParty s); [|discriminate].
    intros H. injection H as <-. reflexivity.
Qed.

Lemma handle_keeps_party (props : MapViewProps) (s s' : ViewState)
      (ev : UIEvent) :
  partyEvent ev = false ->
  handle props s ev = Some s' ->
  selectedParty s' = selectedParty s.
Proof.
  unfold handle. destruct (mode props); try discriminate.
  destruct ev as [| | |i|i| |]; try discriminate; intros _.
  - intros H. injection H as <-. reflexivity.
  - intros H. injection H as <-. reflexivity.
  - destruct (nth_error (candidates props) i); [|discriminate].
    intros H. injection H as <-. reflexivity.
  - destruct (selectedCandidate s); [|discriminate].
    intros H. injection H as <-. reflexivity.
Qed.
End PresenterFacts.

(** X10: the pin colours tell the sports apart: two keys of the palette with
    the same pin colour are the same sport, no key of the palette gets the
    default colour, and a sport that is neither a key of the palette nor the
    name of a member every object inherits gets the default "#2563eb". *)
Theorem pin_colours_tell_sports_apart :
  (forall s1 s2,
      In s1 (map fst colorMap) -> In s2 (map fst colorMap) ->
      pin_fill (getMarkerIcon s1) = pin_fill (getMarkerIcon s2) -> s1 = s2) /\
  (forall s,
      In s (map fst colorMap) ->
      exists hex, pin_fill (getMarkerIcon s) = Colour hex /\ hex <> "#2563eb") /\
  (forall s,
      ~ In s (map fst colorMap) -> ~ In s objectPrototypeMembers ->
      pin_fill (getMarkerIcon s) = Colour "#2563eb").
Proof.
  split; [|split].
  - intros s1 s2 H1 H2 E. simpl in H1, H2.
    repeat (destruct H1 as [<- | H1]); try contradiction;
      repeat (destruct H2 as [<- | H2]); try contradiction;
      try reflexivity; vm_compute in E; discriminate E.
  - intros s H. simpl in H.
    repeat (destruct H as [<- | H]); try contradiction;
      eexists; (split; [reflexivity | discriminate]).
  - intros s Hk Hm. unfold getMarkerIcon, markerColor. cbn [pin_fill].
    rewrite (ownProperty_none colorMap s Hk).
    apply Array_includes_not_In in Hm. rewrite Hm. reflexivity.
Qed.

(** X11: for a party with a non-empty place identifier, [handleNavigate]
    looks at the venue name, or at "Destination" when there is none.  If
    that text holds a surrogate without its partner, [encodeURIComponent]
    throws a [URIError] and no window is opened.  Otherwise one window is
    opened, in a new tab, on the fixed base, the place identifier as it is,
    the encoded name and the driving mode, in which the encoded name is what
    [encodeURIComponent] returns for that text: it is not empty, every
    percent sign in it starts an escape of two hexadecimal digits, every
    other character is unreserved, and decoding it gives the text back.
    Neither the coordinates nor the way numbers are printed enter the
    link. *)
Theorem navigate_by_place_encodes_the_venue :
  forall (Number_toString : Q -> string) (party : Party) (place : string),
    placeId party = Some place ->
    place <> "" ->
    (hasLoneSurrogate (or_default truthy_string (venueName party) "Destination") = true ->
       handleNavigate Number_toString party = ThrowsURIError) /\
    (hasLoneSurrogate (or_default truthy_string (venueName party) "Destination") = false ->
       exists encoded,
         encodeURIComponent (or_default truthy_string (venueName party) "Destination")
           = Returns encoded /\
         handleNavigate Number_toString party =
           Returns
             [WindowOpen
                ("https://www.google.com/maps/dir/?api=1"
                   ++ ("&destination_place_id=" ++ place ++ "&destination=" ++ encoded)
                   ++ "&travelmode=driving")
                "_blank"] /\
         encoded <> "" /\
         wellEscaped encoded /\
         percentDecode encoded
           = Some (or_default truthy_string (venueName party) "Destination")).
Proof.
  intros show party place Hp Hne.
  assert (Ht : truthy_string place = true) by (destruct place; [congruence | reflexivity]).
  unfold handleNavigate, destinationParam, encodeURIComponent.
  rewrite Hp, Ht. split; intros Hs; rewrite Hs; [reflexivity|].
  exists (escapeBytes (or_default truthy_string (venueName party) "Destination")).
  split; [reflexivity|]. split; [reflexivity|]. split; [|split].
  - apply escapeBytes_nonempty.
    destruct (venueName party) as [[|c v]|]; simpl; discriminate.
  - apply escapeBytes_wellEscaped.
  - apply percentDecode_escapeBytes.
Qed.

(** X11 at work: the party of the specification, at Central Park, and the
    same party at a venue whose name is one unpaired surrogate. *)
Lemma navigate_by_place_encodes_the_venue_witness :
  (exists encoded,
      encodeURIComponent "Central Park" = Returns encoded /\
      handleNavigate showInteger centralPark =
        Returns
          [WindowOpen
             ("https://www.google.com/maps/dir/?api=1"
                ++ ("&destination_place_id=" ++ "ChIJxxx" ++ "&destination=" ++ encoded)
                ++ "&travelmode=driving")
             "_blank"] /\
      encoded <> "" /\
      wellEscaped encoded /\
      percentDecode encoded = Some "Central Park") /\
  handleNavigate showInteger (atVenue centralPark loneSurrogate) = ThrowsURIError.
Proof.
  split.
  - apply (navigate_by_place_encodes_the_venue showInteger centralPark "ChIJxxx").
    + reflexivity.
    + discriminate.
    + reflexivity.
  - apply (navigate_by_place_encodes_the_venue
             showInteger (atVenue centralPark loneSurrogate) "ChIJxxx").
    + reflexivity.
    + discriminate.
    + reflexivity.
Defined.

(** The link of the specification's scenario. *)
Example navigate_to_central_park :
  handleNavigate showInteger centralPark =
    Returns
      [WindowOpen
         "https://www.google.com/maps/dir/?api=1&destination_place_id=ChIJxxx&destination=Central%20Park&travelmode=driving"
         "_blank"].
Proof.
  reflexivity.
Qed.

(** X12: a click on the join button reaches [onJoinParty] only for a party
    that can be joined: the effect occurs only in the ready state, for the
    selected party's own [id], when the current user is not among its
    members and the player count is below the maximum; and in exactly that
    situation the click calls [onJoinParty] once. *)
Theorem join_click_only_when_joinable :
  forall (props : MapViewProps) (s : ViewState),
    (forall partyId,
        In (OnJoinParty partyId) (clickJoin props s) ->
        mode props = Ready /\
        exists selected,
          selectedParty s = Some selected /\
          id selected = partyId /\
          ~ In (currentUser props) (members selected) /\
          lt (playersCurrent selected) (playersMax selected)) /\
    (forall selected,
        mode props = Ready ->
        selectedParty s = Some selected ->
        ~ In (currentUser props) (members selected) ->
        lt (playersCurrent selected) (playersMax selected) ->
        clickJoin props s = [OnJoinParty (id selected)]).
Proof.
  intros props s. split.
  - intros pid Hin. unfold clickJoin in Hin.
    destruct (mode props) eqn:Hm.
    1, 2: exfalso;
      destruct (render_not_ready props s) as [(m & i & E) | (i & E)];
      [congruence | rewrite E in Hin; exact Hin | rewrite E in Hin; exact Hin].
    split; [reflexivity|].
    rewrite (render_ready props s Hm) in Hin. cbv zeta in Hin.
    destruct (selectedParty s) as [selected|]; [|contradiction].
    destruct (In_members_dec props selected) as [Hj | Hj].
    + rewrite (renderPartyPanel_joined props selected Hj) in Hin. contradiction.
    + destruct (renderPartyPanel_not_joined props selected Hj) as (panel & E & Hd).
      rewrite E, Hd in Hin. unfold getButtonState in Hin.
      apply Array_includes_not_In in Hj. rewrite Hj in Hin.
      destruct (ge (playersCurrent selected) (playersMax selected)) eqn:Ef;
        simpl in Hin; [contradiction|].
      destruct Hin as [Hin | []]. injection Hin as <-.
      exists selected. repeat split.
      * apply Array_includes_not_In. exact Hj.
      * apply ge_false_lt. exact Ef.
  - intros selected Hm Hs Hj Hlt. unfold clickJoin.
    rewrite (render_ready props s Hm), Hs. cbv zeta.
    destruct (renderPartyPanel_not_joined props selected Hj) as (panel & E & Hd).
    rewrite E, Hd. unfold getButtonState.
    apply Array_includes_not_In in Hj. rewrite Hj.
    destruct (ge (playersCurrent selected) (playersMax selected)) eqn:Ef.
    + apply ge_le in Ef. destruct (lt_not_le _ _ Hlt Ef).
    + reflexivity.
Qed.

(** X12 at work: a party with room for a stranger, and the same party
    full. *)
Lemma join_click_only_when_joinable_witness :
  clickJoin (readyProps [party 3 10 ["x"]] [] "me")
            {| map_ready := true;
               selectedParty := Some (party 3 10 ["x"]);
               selectedCandidate := None |}
    = [OnJoinParty "p1"] /\
  (forall partyId,
      In (OnJoinParty partyId)
         (clickJoin (readyProps [party 10 10 ["x"]] [] "me")
                    {| map_ready := true;
                       selectedParty := Some (party 10 10 ["x"]);
                       selectedCandidate := None |}) ->
      mode (readyProps [party 10 10 ["x"]] [] "me") = Ready /\
      exists selected,
        Some (party 10 10 ["x"]) = Some selected /\
        id selected = partyId /\
        ~ In "me" (members selected) /\
        lt (playersCurrent selected) (playersMax selected)).
Proof.
  split.
  - apply (proj2 (join_click_only_when_joinable
                    (readyProps [party 3 10 ["x"]] [] "me")
                    {| map_ready := true;
                       selectedParty := Some (party 3 10 ["x"]);
                       selectedCandidate := None |})
                 (party 3 10 ["x"])).
    + reflexivity.
    + reflexivity.
    + simpl. intros [H | []]. discriminate H.
    + numerals.
  - exact (proj1 (join_click_only_when_joinable
                    (readyProps [party 10 10 ["x"]] [] "me")
                    {| map_ready := true;
                       selectedParty := Some (party 10 10 ["x"]);
                       selectedCandidate := None |})).
Defined.

(** X13: whatever the user does, starting from the initial state, a selected
    party is one of the parties passed to the component and a selected
    candidate is one of the candidates passed to it (as long as these lists
    stay the same). *)
Theorem selection_comes_from_props :
  forall (props : MapViewProps) (evs : list UIEvent),
    selectionFromProps props (run props initialState evs).
Proof.
  intros props evs.
  assert (H : forall s, selectionFromProps props s ->
                        selectionFromProps props (run props s evs)).
  { induction evs as [|ev evs IH]; intros s Hs; [exact Hs|].
    cbn [run]. destruct (handle props s ev) as [s'|] eqn:E.
    - apply IH. apply (handle_selectionFromProps props s s' ev Hs E).
    - apply IH, Hs. }
  apply H. split; discriminate.
Qed.

(** X14: the two selection slots are independent: a sequence of events with
    no candidate marker click and no candidate panel close leaves the
    selected candidate as it was, clicks on the map included; a sequence
    with no party marker click, no party panel close and no map click leaves
    the selected party as it was. *)
Theorem selection_slots_are_independent :
  forall (props : MapViewProps) (s : ViewState) (evs : list UIEvent),
    (forallb (fun ev => negb (candidateEvent ev)) evs = true ->
       selectedCandidate (run props s evs) = selectedCandidate s) /\
    (forallb (fun ev => negb (partyEvent ev)) evs = true ->
       selectedParty (run props s evs) = selectedParty s).
Proof.
  intros props s evs. revert s.
  induction evs as [|ev evs IH]; intros s; [split; reflexivity|].
  cbn [run forallb]. split; intros H; apply andb_prop in H; destruct H as [Hev Hrest];
    apply negb_true_iff in Hev.
  - destruct (handle props s ev) as [s'|] eqn:E.
    + rewrite (proj1 (IH s') Hrest). apply (handle_keeps_candidate props s s' ev Hev E).
    + apply (proj1 (IH s) Hrest).
  - destruct (handle props s ev) as [s'|] eqn:E.
    + rewrite (proj2 (IH s') Hrest). apply (handle_keeps_party props s s' ev Hev E).
    + apply (proj2 (IH s) Hrest).
Qed.

(** X15: [CheckCircle] is the only identifier a render fails to resolve:
    of the identifiers the render expressions evaluate, every other one is
    bound, so if evaluating them throws, it throws a reference error on
    [CheckCircle], in the ready state, with a party selected that has the
    current user among its members. *)
Theorem render_throws_only_on_joined :
  forall (props : MapViewProps) (s : ViewState) (e : exn),
    render props s = Throw e ->
    e = ReferenceError "CheckCircle" /\
    mode props = Ready /\
    exists selected,
      selectedParty s = Some selected /\
      In (currentUser props) (members selected).
Proof.
  intros props s e Hr.
  destruct (mode props) eqn:Hm.
  1, 2: exfalso;
    destruct (render_not_ready props s) as [(m & i & E) | (i & E)];
    [congruence | rewrite E in Hr; discriminate Hr | rewrite E in Hr; discriminate Hr].
  rewrite (render_ready props s Hm) in Hr. cbv zeta in Hr.
  destruct (selectedParty s) as [selected|]; [|discriminate Hr].
  destruct (In_members_dec props selected) as [Hj | Hj].
  - rewrite (renderPartyPanel_joined props selected Hj) in Hr.
    injection Hr as <-. split; [reflexivity|]. split; [reflexivity|].
    exists selected. split; [reflexivity | exact Hj].
  - destruct (renderPartyPanel_not_joined props selected Hj) as (panel & E & _).
    rewrite E in Hr. discriminate Hr.
Qed.

(** X15 at work: a full party the current user has joined. *)
Lemma render_throws_only_on_joined_witness :
  ReferenceError "CheckCircle" = ReferenceError "CheckCircle" /\
  mode (readyProps [party 10 10 ["x"; "me"]] [] "me") = Ready /\
  exists selected,
    Some (party 10 10 ["x"; "me"]) = Some selected /\
    In "me" (members selected).
Proof.
  apply (render_throws_only_on_joined
           (readyProps [party 10 10 ["x"; "me"]] [] "me")
           {| map_ready := true;
              selectedParty := Some (party 10 10 ["x"; "me"]);
              selectedCandidate := None |}
           (ReferenceError "CheckCircle")).
  reflexivity.
Defined.



(** X17: in the ready state a click on a marker opens the panel of the
    party, or candidate, that very marker was drawn for (the selected
    record carries the marker's key), replaces whatever was selected in that
    slot before, and leaves the other slot as it was. *)
Theorem marker_click_selects_its_own :
  forall (props : MapViewProps) (s : ViewState) (i : nat),
    mode props = Ready ->
    (forall m,
        nth_error (partyMarkers props) i = Some m ->
        exists selected,
          handle props s (PartyMarkerClick i) =
            Some {| map_ready := map_ready s;
                    selectedParty := Some selected;
                    selectedCandidate := selectedCandidate s |} /\
          id selected = pm_key m /\
          getMarkerIcon (sport selected) = pm_icon m) /\
    (forall m,
        nth_error (candidateMarkers props) i = Some m ->
        exists selected,
          handle props s (CandidateMarkerClick i) =
            Some {| map_ready := map_ready s;
                    selectedParty := selectedParty s;
                    selectedCandidate := Some selected |} /\
          uid (base selected) = cm_key m /\
          getCandidateMarkerIcon (compatibilityScore selected) = cm_icon m).
Proof.
  intros props s i Hm. unfold handle. rewrite Hm. split; intros m Hn.
  - unfold partyMarkers in Hn. rewrite nth_error_map in Hn.
    destruct (nth_error (parties props) i) as [selected|]; [|discriminate Hn].
    injection Hn as <-. exists selected. repeat split.
  - unfold candidateMarkers in Hn. rewrite nth_error_map in Hn.
    destruct (nth_error (candidates props) i) as [selected|]; [|discriminate Hn].
    injection Hn as <-. exists selected. repeat split.
Qed.

(** X17 at work: the second of two party markers. *)
Lemma marker_click_selects_its_own_witness :
  exists selected,
    handle (readyProps [party 3 10 ["x"]; centralPark] [] "me")
           {| map_ready := true;
              selectedParty := Some (party 3 10 ["x"]);
              selectedCandidate := None |}
           (PartyMarkerClick 1) =
      Some {| map_ready := true;
              selectedParty := Some selected;
              selectedCandidate := None |} /\
    id selected = "p2" /\
    getMarkerIcon (sport selected) =
      {| pin_fill := Colour "#ef4444";
         pin_scaledSize := (40, 40)%Z;
         pin_anchor := (20, 40)%Z |}.
Proof.
  apply (proj1 (marker_click_selects_its_own
                  (readyProps [party 3 10 ["x"]; centralPark] [] "me")
                  {| map_ready := true;
                     selectedParty := Some (party 3 10 ["x"]);
                     selectedCandidate := None |}
                  1 eq_refl)
               {| pm_key := "p2";
                  pm_position := {| lat := 0; lng := 0 |};
                  pm_icon := {| pin_fill := Colour "#ef4444";
                                pin_scaledSize := (40, 40)%Z;
                                pin_anchor := (20, 40)%Z |} |}).
  reflexivity.
Defined.


(* ================================================================== *)
(** * The candidate ranker on an answer of any shape: properties *)
(* ================================================================== *)

Section AnyPayloadFacts.
Import AnyPayload.

Variable h : Host.

Lemma findItem_In (p : JSON -> completion bool) (items : list JSON) (r : JSON) :
  findItem p items = Normal (Some r) -> In r items.
Proof.
  induction items as [|x items IH]; cbn [findItem]; [discriminate|].
  destruct (p x) as [[|]|e]; try discriminate.
  - intros H. injection H as <-. left. reflexivity.
  - intros H. right. apply IH, H.
Qed.

(** With numeric scores in the answer, every merged score is a number. *)
Lemma mergeOne_numeric (rankedData : JSON) (c : User) (r : RankedUser) :
  numericScores rankedData ->
  mergeOne rankedData c = Normal r ->
  numeric r.
Proof.
  intros Hn. unfold mergeOne.
  destruct (Array_find rankedData (uidIs (uid c))) as [rank|e] eqn:E; [|discriminate].
  intros H. injection H as <-. unfold numeric. cbn [compatibilityScore].
  destruct rank as [[| | | | |ms]|]; try (eexists; reflexivity).
  cbn [optionalMember].
  destruct (get "compatibilityScore" ms) as [s|] eqn:Eg;
    cbn [or_default]; [|eexists; reflexivity].
  destruct (truthy s); [|eexists; reflexivity].
  destruct rankedData as [| | | |items|]; try discriminate E.
  cbn [Array_find] in E. apply findItem_In in E.
  cbn [numericScores] in Hn. rewrite Forall_forall in Hn.
  specialize (Hn _ E). cbn in Hn. rewrite Eg in Hn. exact Hn.
Qed.

Lemma merge_numeric (rankedData : JSON) (C : list User) (l : list RankedUser) :
  numericScores rankedData ->
  merge rankedData C = Normal l ->
  Forall numeric l.
Proof.
  intros Hn. revert l. induction C as [|c C IH]; cbn [merge]; intros l H.
  - injection H as <-. constructor.
  - destruct (mergeOne rankedData c) as [r|e] eqn:E1; [|discriminate].
    destruct (merge rankedData C) as [rs|e]; [|discriminate].
    injection H as <-. constructor.
    + apply (mergeOne_numeric rankedData c r Hn E1).
    + apply IH. reflexivity.
Qed.

(** On two numbers the comparator answers without the host. *)
Lemma comes_after_numeric (x y : RankedUser) (nx ny : number) :
  compatibilityScore x = JNumber nx ->
  compatibilityScore y = JNumber ny ->
  comes_after (byScoreDesc h) x y = Normal (gt ny nx).
Proof.
  intros Hx Hy. unfold comes_after, byScoreDesc. rewrite Hx, Hy. cbn [toNumber].
  pose proof (sub_positive nx ny) as Hs.
  destruct (sub ny nx) as [v|]; rewrite <- Hs; reflexivity.
Qed.

Lemma notBelow_trans (r1 r2 r3 : RankedUser) :
  notBelow r1 r2 -> notBelow r2 r3 -> notBelow r1 r3.
Proof.
  intros (n1 & n2 & H1 & H2 & H12) (n2' & n3 & H2' & H3 & H23).
  rewrite H2 in H2'. injection H2' as <-.
  exists n1, n3. repeat split; try assumption.
  apply (le_trans _ _ _ H23 H12).
Qed.

Lemma sort_insert_numeric (x : RankedUser) (l : list RankedUser) :
  numeric x -> Forall numeric l -> Sorted notBelow l ->
  exists l',
    sort_insert (byScoreDesc h) x l = Normal l' /\
    Permutation l' (x :: l) /\
    Sorted notBelow l' /\
    (forall z, notBelow z x -> HdRel notBelow z l -> HdRel notBelow z l').
Proof.
  intros (nx & Hx) Hl Hs.
  induction l as [|y l IH]; cbn [sort_insert].
  - eexists. split; [reflexivity|]. split; [apply Permutation_refl|].
    split; [repeat constructor|]. intros z Hz _. constructor. exact Hz.
  - inversion Hl as [|? ? (ny & Hy) Hl']; subst.
    inversion Hs as [|? ? Hs' Hhd]; subst.
    rewrite (comes_after_numeric x y nx ny Hx Hy).
    destruct (gt ny nx) eqn:E.
    + destruct (IH Hl' Hs') as (l' & -> & Hp & Hsl & Hh).
      eexists. split; [reflexivity|]. split; [|split].
      * apply perm_trans with (y :: x :: l); [apply perm_skip, Hp | apply perm_swap].
      * constructor; [exact Hsl|]. apply Hh; [|exact Hhd].
        exists ny, nx. repeat split; try assumption. apply lt_le, gt_lt, E.
      * intros z _ Hz. inversion Hz; subst. constructor. assumption.
    + eexists. split; [reflexivity|]. split; [apply Permutation_refl|]. split.
      * constructor; [exact Hs|]. constructor.
        exists nx, ny. repeat split; try assumption. apply gt_false_le, E.
      * intros z Hz _. constructor. exact Hz.
Qed.

Lemma Array_sort_numeric (l : list RankedUser) :
  Forall numeric l ->
  exists l',
    Array_sort (byScoreDesc h) l = Normal l' /\
    Permutation l' l /\
    Sorted notBelow l'.
Proof.
  induction 1 as [|x l Hx Hl IH]; cbn [Array_sort].
  - eexists. split; [reflexivity|]. split; constructor.
  - destruct IH as (r & -> & Hp & Hs).
    assert (Hr : Forall numeric r)
      by (apply (Permutation_Forall (Permutation_sym Hp)); exact Hl).
    destruct (sort_insert_numeric x r Hx Hr Hs) as (l' & E & Hp' & Hs' & _).
    exists l'. split; [exact E|]. split; [|exact Hs'].
    apply perm_trans with (x :: r); [exact Hp' | apply perm_skip, Hp].
Qed.

Lemma fallback_sorted (reason : string) (C : list User) :
  sortedByScoreDesc (fallback reason C).
Proof.
  unfold sortedByScoreDesc, fallback.
  induction C as [|c C IH]; cbn [map]; constructor; [exact IH|].
  apply Forall_forall. intros r Hr.
  apply in_map_iff in Hr. destruct Hr as (c' & <- & _).
  exists (Finite 0), (Finite 0). repeat split. simpl. apply Qle_refl.
Qed.
End AnyPayloadFacts.

Section SchemaAnswers.
Import AnyPayload.

Variable h : Ranker.Host.
Variable conversion : JSON -> completion (option number).

Lemma findItem_ofEntry (u : string) (rd : list RankEntry) :
  findItem (uidIs u) (map ofEntry rd) =
    Normal (option_map ofEntry
              (JS.Array_find (fun r => String.eqb (entry_uid r) u) rd)).
Proof.
  unfold JS.Array_find. induction rd as [|e rd IH]; [reflexivity|].
  cbn [map findItem find].
  replace (uidIs u (ofEntry e)) with (Normal (A := bool) (String.eqb (entry_uid e) u))
    by reflexivity.
  destruct (String.eqb (entry_uid e) u); [reflexivity | exact IH].
Qed.

Lemma mergeOne_ofEntries (rd : list RankEntry) (c : User) :
  mergeOne (ofEntries rd) c = Normal (ofRanked (Ranker.mergeOne rd c)).
Proof.
  unfold mergeOne, ofEntries. cbn [Array_find]. rewrite findItem_ofEntry.
  unfold Ranker.mergeOne, ofRanked, spread.
  cbn [Ranker.base Ranker.compatibilityScore Ranker.rankingReason].
  destruct (JS.Array_find _ rd) as [e|]; [|reflexivity].
  cbn [option_map optionalMember ofEntry].
  replace (get "compatibilityScore" _) with (Some (JNumber (entry_compatibilityScore e)))
    by reflexivity.
  replace (get "rankingReason" _) with (Some (JString (entry_rankingReason e)))
    by reflexivity.
  cbn [or_default truthy].
  destruct (truthy_number (entry_compatibilityScore e)),
           (truthy_string (entry_rankingReason e)); reflexivity.
Qed.

Lemma merge_ofEntries (rd : list RankEntry) (C : list User) :
  merge (ofEntries rd) C = Normal (map ofRanked (Ranker.merge rd C)).
Proof.
  unfold Ranker.merge. induction C as [|c C IH]; [reflexivity|].
  cbn [merge map]. rewrite mergeOne_ofEntries, IH. reflexivity.
Qed.

Lemma comes_after_ofRanked (x y : Ranker.RankedUser) :
  comes_after (byScoreDesc (ofHost h conversion)) (ofRanked x) (ofRanked y) =
    Normal (JS.comes_after Ranker.byScoreDesc x y).
Proof.
  rewrite (comes_after_numeric (ofHost h conversion) (ofRanked x) (ofRanked y)
             (Ranker.compatibilityScore x) (Ranker.compatibilityScore y)
             eq_refl eq_refl).
  unfold JS.comes_after, Ranker.byScoreDesc. rewrite sub_positive. reflexivity.
Qed.

Lemma sort_insert_ofRanked (x : Ranker.RankedUser) (l : list Ranker.RankedUser) :
  sort_insert (byScoreDesc (ofHost h conversion)) (ofRanked x) (map ofRanked l) =
    Normal (map ofRanked (JS.sort_insert Ranker.byScoreDesc x l)).
Proof.
  induction l as [|y l IH]; [reflexivity|].
  cbn [map sort_insert JS.sort_insert]. rewrite comes_after_ofRanked.
  destruct (JS.comes_after Ranker.byScoreDesc x y); [|reflexivity].
  rewrite IH. reflexivity.
Qed.

Lemma Array_sort_ofRanked (l : list Ranker.RankedUser) :
  Array_sort (byScoreDesc (ofHost h conversion)) (map ofRanked l) =
    Normal (map ofRanked (JS.Array_sort Ranker.byScoreDesc l)).
Proof.
  induction l as [|x l IH]; [reflexivity|].
  cbn [map Array_sort JS.Array_sort]. rewrite IH. apply sort_insert_ofRanked.
Qed.

Lemma fallback_ofRanked (reason : string) (C : list User) :
  fallback reason C = map ofRanked (Ranker.fallback reason C).
Proof.
  unfold fallback, Ranker.fallback. rewrite map_map. reflexivity.
Qed.

(** On answers inside the schema the run on any answer is the run of
    [Ranker]: the same log, and the same list with the scores and reasons as
    JSON values, whatever the host would convert other values to. *)
Lemma schema_answers_run_alike (u : User) (C : list User) :
  rankCandidates (ofHost h conversion) u C =
    (trace (Ranker.rankCandidates h u C),
     match settled (Ranker.rankCandidates h u C) with
     | Normal l => Normal (map ofRanked l)
     | Throw e => Throw e
     end).
Proof.
  unfold rankCandidates, Ranker.rankCandidates.
  replace (apiKey (ofHost h conversion)) with (Ranker.apiKey h) by reflexivity.
  destruct (truthy_string (Ranker.apiKey h)); cbn [negb].
  - cbv zeta. cbn [generateContent ofHost].
    destruct (Ranker.generateContent h (buildRequest (buildPrompt u C)))
      as [response|e].
    + cbn. destruct (Ranker.JSON_parse h (or_default truthy_string (text response) "[]"))
        as [rd|e].
      * cbn. rewrite merge_ofEntries. cbn. rewrite Array_sort_ofRanked. reflexivity.
      * cbn. rewrite fallback_ofRanked. reflexivity.
    + cbn. rewrite fallback_ofRanked. reflexivity.
  - cbn. rewrite fallback_ofRanked. reflexivity.
Qed.
End SchemaAnswers.

Import AnyScenarios.

(** C4, as stated, fails: the model answers with the scores 1, "high" and 2
    for the candidates "a", "b" and "c".  Nothing throws: the string is
    truthy and is attached as it is, every difference with it is NaN, which
    the sort reads as 0, and the promise resolves to the candidates in the
    order given, the score 1 standing before the score 2. *)
Lemma string_score_resolves_unsorted :
  settled (AnyPayload.rankCandidates (hostAnswering answerHigh valueHigh)
                                     u1 [candA; candB; candC]) =
    Normal [ rankedAny candA (AnyPayload.JNumber (of_Z 1));
             rankedAny candB (AnyPayload.JString "high");
             rankedAny candC (AnyPayload.JNumber (of_Z 2)) ] /\
  ~ AnyPayload.sortedByScoreDesc
      [ rankedAny candA (AnyPayload.JNumber (of_Z 1));
        rankedAny candB (AnyPayload.JString "high");
        rankedAny candC (AnyPayload.JNumber (of_Z 2)) ].
Proof.
  split; [reflexivity|].
  intros Hs. inversion Hs as [|r l _ Hall]; subst.
  inversion Hall as [|? ? _ Hrest]; subst.
  inversion Hrest as [|? ? (n1 & n2 & H1 & H2 & Hle) _]; subst.
  cbn in H1, H2. injection H1 as <-. injection H2 as <-.
  revert Hle. numerals.
Qed.

(** C4, amended: for every host, so for every answer of the model, and every
    candidate list: if every [compatibilityScore] carried by an entry of the
    parsed answer is a number, as the response schema declares, then the
    promise resolves to a list that is non-increasing in
    [compatibilityScore]: all its scores are numbers and each is at least
    that of every later element.  Nothing is said about the order of equal
    scores.  Answers that are not arrays, or that make [find] throw, fall
    under it too: they end in the fallback, whose scores are all 0. *)
Theorem rank_sorted_when_scores_are_numbers :
  forall (h : AnyPayload.Host) (currentUser : User) (candidates : list User),
    (forall response v,
        AnyPayload.generateContent h (buildRequest (buildPrompt currentUser candidates))
          = Normal response ->
        AnyPayload.JSON_parse h (or_default truthy_string (text response) "[]")
          = Normal v ->
        AnyPayload.numericScores v) ->
    exists out,
      settled (AnyPayload.rankCandidates h currentUser candidates) = Normal out /\
      AnyPayload.sortedByScoreDesc out.
Proof.
  intros h u C Hnum. unfold AnyPayload.rankCandidates.
  destruct (truthy_string (AnyPayload.apiKey h)); cbn [negb];
    [|eexists; split; [reflexivity | apply fallback_sorted]].
  cbv zeta.
  destruct (AnyPayload.generateContent h (buildRequest (buildPrompt u C)))
    as [response|e] eqn:Hc;
    [|eexists; split; [reflexivity | apply fallback_sorted]].
  specialize (Hnum response).
  destruct (AnyPayload.JSON_parse h (or_default truthy_string (text response) "[]"))
    as [v|e] eqn:Hp;
    [|eexists; split; [cbn; rewrite Hp; reflexivity | apply fallback_sorted]].
  specialize (Hnum v eq_refl eq_refl).
  destruct (AnyPayload.merge v C) as [merged|e] eqn:Hm;
    [|eexists; split; [cbn; rewrite Hp; cbn; rewrite Hm; reflexivity
                      | apply fallback_sorted]].
  destruct (Array_sort_numeric h merged (merge_numeric v C merged Hnum Hm))
    as (out & Hsort & _ & Hsorted).
  exists out. split.
  - cbn. rewrite Hp. cbn. rewrite Hm. cbn. rewrite Hsort. reflexivity.
  - apply Sorted_StronglySorted; [|exact Hsorted].
    intros x y z. apply notBelow_trans.
Qed.

(** C4, amended, at work: the model answers with the scores 1, 3 and 2. *)
Lemma rank_sorted_when_scores_are_numbers_witness :
  exists out,
    settled (AnyPayload.rankCandidates (hostAnswering answerNumbers valueNumbers)
                                       u1 [candA; candB; candC]) = Normal out /\
    AnyPayload.sortedByScoreDesc out.
Proof.
  apply (rank_sorted_when_scores_are_numbers
           (hostAnswering answerNumbers valueNumbers) u1 [candA; candB; candC]).
  intros response v Hc Hp.
  injection Hc as <-. injection Hp as <-.
  repeat constructor; eexists; reflexivity.
Defined.
